(** * Verification of the chapter segmentation, title repair, template
    resolution and prompt composition core of ReportGen.

    Sources embedded here:
    - backend/app/services/chapter_parser.py   ([ChapterParser])
    - backend/app/services/prompt_manager.py   ([PromptManager])
    - backend/app/services/report_generator.py (placeholder substitution)

    Python [str] values are sequences of Unicode code points; they are
    modelled as [list N], one code point per element. *)

From Stdlib Require Import List Bool Arith Lia NArith ZArith String Ascii.
Import ListNotations.

(* ------------------------------------------------------------------ *)
(** ** Python string primitives *)

Module PyStr.

Definition ustr := list N.

(** An ASCII literal as a code-point string. *)
Definition u (s : string) : ustr :=
  map (fun a => N.of_nat (nat_of_ascii a)) (list_ascii_of_string s).

Definition ustr_eqb (a b : ustr) : bool :=
  if list_eq_dec N.eq_dec a b then true else false.

Lemma ustr_eqb_eq a b : ustr_eqb a b = true <-> a = b.
Proof. unfold ustr_eqb; destruct (list_eq_dec N.eq_dec a b); split; congruence. Qed.

(** [str.isspace] for one code point (CPython's [Py_UNICODE_ISSPACE]); the
    same predicate is used by [str.strip] and by the regex class [\s]. *)
Definition isspace (c : N) : bool :=
  ((9 <=? c) && (c <=? 13))%N || ((28 <=? c) && (c <=? 32))%N
  || (c =? 133)%N || (c =? 160)%N || (c =? 5760)%N
  || ((8192 <=? c) && (c <=? 8202))%N
  || (c =? 8232)%N || (c =? 8233)%N || (c =? 8239)%N || (c =? 8287)%N
  || (c =? 12288)%N.

Fixpoint lstrip (s : ustr) : ustr :=
  match s with
  | [] => []
  | c :: s' => if isspace c then lstrip s' else s
  end.

Definition rstrip (s : ustr) : ustr := rev (lstrip (rev s)).

Definition strip (s : ustr) : ustr := lstrip (rstrip s).

(** [s.startswith(p)] *)
Fixpoint startswith (s p : ustr) {struct p} : bool :=
  match p, s with
  | [], _ => true
  | c :: p', d :: s' => (c =? d)%N && startswith s' p'
  | _ :: _, [] => false
  end.

(** [s.endswith(p)] *)
Definition endswith (s p : ustr) : bool := startswith (rev s) (rev p).

(** [s.find(p)]: index of the first occurrence, [-1] when absent. *)
Fixpoint find (s p : ustr) : Z :=
  if startswith s p then 0%Z
  else match s with
       | [] => (-1)%Z
       | _ :: s' => let r := find s' p in if (r <? 0)%Z then (-1)%Z else (r + 1)%Z
       end.

(** [s.count(p)] for a non-empty [p]: non-overlapping occurrences, scanned
    left to right.  Each step consumes at least one code point, so
    [S (length s)] steps suffice. *)
Fixpoint count_go (fuel : nat) (s p : ustr) : nat :=
  match fuel with
  | 0 => 0
  | S fuel' =>
      match s with
      | [] => 0
      | _ :: s' =>
          if startswith s p then S (count_go fuel' (skipn (List.length p) s) p)
          else count_go fuel' s' p
      end
  end.

Definition count (s p : ustr) : nat := count_go (S (List.length s)) s p.

(** [seg * k] *)
Fixpoint repeat_str (seg : ustr) (k : nat) : ustr :=
  match k with
  | 0 => []
  | S k' => seg ++ repeat_str seg k'
  end.

(** The first [Some] produced by a loop body over a list: a Python [for]
    loop that [return]s from inside. *)
Fixpoint first_some {A B : Type} (f : A -> option B) (l : list A) : option B :=
  match l with
  | [] => None
  | x :: l' => match f x with Some b => Some b | None => first_some f l' end
  end.

(** [range(a, b)] *)
Definition range (a b : nat) : list nat := seq a (b - a).

End PyStr.

(* ------------------------------------------------------------------ *)
(** ** [ChapterParser._clean_repeated_title] *)

Module TitleNormalizer.
Import PyStr.

(** Strategy 1, exact repetition: the loop body for one [segment_len]. *)
Definition exact_repetition_body (title : ustr) (segment_len : nat) : option ustr :=
  let length := List.length title in
  if Nat.eqb (length mod segment_len) 0 then
    let segment := firstn segment_len title in
    if ustr_eqb (repeat_str segment (length / segment_len)) title
    then Some segment else None
  else None.

(** [for segment_len in range(1, length // 2 + 1)] *)
Definition exact_repetition (title : ustr) : option ustr :=
  first_some (exact_repetition_body title) (range 1 (List.length title / 2 + 1)).

(** The numerals of [chinese_nums] and the enumeration comma [、]. *)
Definition chinese_nums : list N :=
  [19968; 20108; 19977; 22235; 20116; 20845; 19971; 20843; 20061; 21313]%N.
Definition dun : N := 12289%N.

(** [while candidate and candidate.rstrip().endswith(num):
       candidate = candidate.rstrip()[:-len(num)]]
    Every iteration shortens [candidate], so [S (length candidate)]
    iterations suffice. *)
Fixpoint strip_trailing_num (fuel : nat) (num : N) (candidate : ustr) : ustr :=
  match fuel with
  | 0 => candidate
  | S fuel' =>
      match candidate with
      | [] => candidate
      | _ =>
          let r := rstrip candidate in
          if endswith r [num]
          then strip_trailing_num fuel' num (firstn (List.length r - 1) r)
          else candidate
      end
  end.

(** Strategy 2, one iteration of [for num in chinese_nums]. *)
Definition numbered_prefix_step (title : ustr) (num : N) : option ustr :=
  let prefix := [num; dun] in
  if startswith title prefix then
    let prefix_count := count title prefix in
    if 1 <? prefix_count then
      let after_first_prefix := skipn (List.length prefix) title in
      let next_prefix_pos := find after_first_prefix prefix in
      if (0 <? next_prefix_pos)%Z then
        let core_title := firstn (Z.to_nat next_prefix_pos) after_first_prefix in
        Some (prefix ++ core_title)
      else
        let num_pos := find after_first_prefix [num] in
        if (0 <? num_pos)%Z then
          let candidate := firstn (Z.to_nat num_pos) after_first_prefix in
          Some (prefix ++ strip_trailing_num (S (List.length candidate)) num candidate)
        else None
    else None
  else None.

Definition numbered_prefix (title : ustr) : option ustr :=
  first_some (numbered_prefix_step title) chinese_nums.

(** Strategy 3, cut-point scan:
    [for cut_point in range(len(title) // 3, len(title))].
    The test [len(rest) < len(candidate) * 0.6] is a float comparison; for
    lengths below 2^50 the rounded product [len(candidate) * 0.6] lies on
    the same side of every integer as the exact [3 * len(candidate) / 5],
    so it is written as [5 * len(rest) < 3 * len(candidate)]. *)
Definition cut_point_body (title : ustr) (cut_point : nat) : option ustr :=
  let candidate := firstn cut_point title in
  let rest := skipn cut_point title in
  if negb (ustr_eqb candidate [])
     && negb (startswith rest (firstn (Nat.min 5 (List.length candidate)) candidate))
  then None
  else if 5 * List.length rest <? 3 * List.length candidate then Some candidate
  else None.

Definition cut_point_scan (title : ustr) : option ustr :=
  first_some (cut_point_body title) (range (List.length title / 3) (List.length title)).

Definition clean_repeated_title (title : ustr) : ustr :=
  match title with
  | [] => title
  | _ =>
      match exact_repetition title with
      | Some s => s
      | None =>
          match numbered_prefix title with
          | Some s => s
          | None =>
              match cut_point_scan title with
              | Some s => s
              | None => title
              end
          end
      end
  end.

End TitleNormalizer.

(* ------------------------------------------------------------------ *)
(** ** [ChapterParser.HEADING_PATTERNS] and [ChapterParser._match_heading]

    [_match_heading] only receives stripped lines produced by
    [str.splitlines], which contain no line feed; on such lines [.] matches
    every remaining code point and [$] is the end of the line.  In each of
    the first three patterns the repeated class and the class that follows
    it are disjoint, so the greedy [+] succeeds exactly with the maximal run;
    [[\s　]*] and [\s+] are greedy and [( .* )] takes whatever remains. *)

Module HeadingMatcher.
Import PyStr.

Definition mem (c : N) (l : list N) : bool := existsb (N.eqb c) l.

Fixpoint span (p : N -> bool) (s : ustr) : ustr * ustr :=
  match s with
  | [] => ([], [])
  | c :: s' => if p c then let (a, b) := span p s' in (c :: a, b) else ([], s)
  end.

Definition di : N := 31532%N.                                   (* 第 *)
Definition numerals_chapter : list N :=                         (* 一..十百千万 *)
  TitleNormalizer.chinese_nums ++ [30334; 21315; 19975]%N.
Definition chapter_words : list N := [31456; 33410; 31687; 37096; 27573]%N. (* 章节篇部段 *)
Definition enum_marks : list N := [46; 12289]%N.                (* . 、 *)
Definition digits : list N := map N.of_nat (seq 48 10).         (* 0-9 *)
Definition hash : N := 35%N.                                    (* # *)
Definition ideographic_space : N := 12288%N.                    (* 　 *)

Definition ws_or_ideographic (c : N) : bool := isspace c || (c =? ideographic_space)%N.

(** [^(<lead><num>+<mark>)[\s　]*( .* )$] with an optional lead code point. *)
Definition match_numbered (lead : list N) (nums marks : list N) (line : ustr)
  : option (ustr * ustr) :=
  if startswith line lead then
    let s := skipn (List.length lead) line in
    let (run, r) := span (fun c => mem c nums) s in
    match run, r with
    | _ :: _, w :: r' =>
        if mem w marks
        then Some (lead ++ run ++ [w], snd (span ws_or_ideographic r'))
        else None
    | _, _ => None
    end
  else None.

(** [^(第[一二三四五六七八九十百千万]+[章节篇部段])[\s　]*( .* )$] *)
Definition pattern_chapter (line : ustr) := match_numbered [di] numerals_chapter chapter_words line.
(** [^([一二三四五六七八九十]+[\.、])[\s　]*( .* )$] *)
Definition pattern_chinese (line : ustr) := match_numbered [] TitleNormalizer.chinese_nums enum_marks line.
(** [^([0-9]+[\.\、])[\s　]*( .* )$] *)
Definition pattern_arabic (line : ustr) := match_numbered [] digits enum_marks line.

(** [^(#{1,3})\s+( .* )$]: [#{1,3}] can only stop before a code point that is
    not [#], so the run of [#] must be the maximal one, of length 1 to 3. *)
Definition pattern_markdown (line : ustr) : option (ustr * ustr) :=
  let (hashes, r) := span (N.eqb hash) line in
  if (1 <=? List.length hashes) && (List.length hashes <=? 3) then
    match r with
    | w :: r' => if isspace w then Some (hashes, snd (span isspace r')) else None
    | [] => None
    end
  else None.

Inductive pattern_kind := Numbered | Markdown.

Definition heading_patterns : list (pattern_kind * (ustr -> option (ustr * ustr))) :=
  [(Numbered, pattern_chapter); (Numbered, pattern_chinese);
   (Numbered, pattern_arabic); (Markdown, pattern_markdown)].

(** One iteration of [for pattern in self._compiled_patterns]; [finish] is
    what is applied to the assembled title before it is returned. *)
Definition match_one (finish : ustr -> ustr) (line : ustr)
  (pk : pattern_kind * (ustr -> option (ustr * ustr))) : option ustr :=
  let (kind, pattern) := pk in
  match pattern line with
  | None => None
  | Some (g1, g2) =>
      let groups := filter (fun g => negb (ustr_eqb g [])) [g1; g2] in
      match kind with
      | Markdown =>
          match groups with
          | _ :: g :: _ => Some (finish g)
          | _ => None
          end
      | Numbered =>
          match groups with
          | prefix :: rest :: _ => Some (finish (strip (prefix ++ rest)))
          | [g] => Some (finish (strip g))
          | [] => None
          end
      end
  end.

Definition match_heading_with (finish : ustr -> ustr) (line : ustr) : option ustr :=
  first_some (match_one finish line) heading_patterns.

(** [ChapterParser._match_heading]: the assembled title, normalized. *)
Definition match_heading (line : ustr) : option ustr :=
  match_heading_with TitleNormalizer.clean_repeated_title line.

(** The raw title as matched, before [_clean_repeated_title] (not a
    function of the source; used to state the raw-title reading of the
    deduplication rule). *)
Definition match_heading_raw (line : ustr) : option ustr :=
  match_heading_with (fun t => t) line.

End HeadingMatcher.

(* ------------------------------------------------------------------ *)
(** ** [ChapterParser.parse] *)

Module ChapterParser.
Import PyStr.

Record ParsedChapter := { title : ustr; content : ustr }.

(** Line boundaries of [str.splitlines]. *)
Definition is_line_boundary (c : N) : bool :=
  HeadingMatcher.mem c [10; 11; 12; 13; 28; 29; 30; 133; 8232; 8233]%N.

(** [str.splitlines()]: [\r\n] is one boundary; a final boundary does not
    open an empty last line; [cur] is the current line, reversed. *)
Fixpoint splitlines_go (s : ustr) (cur : ustr) : list ustr :=
  match s with
  | [] => match cur with [] => [] | _ => [rev cur] end
  | c :: s' =>
      if (c =? 13)%N then
        match s' with
        | d :: s'' => if (d =? 10)%N then rev cur :: splitlines_go s'' []
                      else rev cur :: splitlines_go s' []
        | [] => rev cur :: splitlines_go s' []
        end
      else if is_line_boundary c then rev cur :: splitlines_go s' []
      else splitlines_go s' (c :: cur)
  end.

Definition splitlines (s : ustr) : list ustr := splitlines_go s [].

(** ["\n".join(l)] *)
Fixpoint join_lines (l : list ustr) : ustr :=
  match l with
  | [] => []
  | [x] => x
  | x :: l' => x ++ [10%N] ++ join_lines l'
  end.

(** The candidate loop of [parse]: [index] is the line number, [seen] the
    set [seen_titles]; [heading] is [self._match_heading]. *)
Fixpoint collect_with (heading : ustr -> option ustr)
  (lines : list ustr) (index : nat) (seen : list ustr) : list (nat * ustr) :=
  match lines with
  | [] => []
  | raw_line :: rest =>
      let line := strip raw_line in
      if ustr_eqb line [] then collect_with heading rest (S index) seen
      else
        match heading line with
        | Some title =>
            if negb (ustr_eqb title []) then
              if existsb (ustr_eqb title) seen
              then collect_with heading rest (S index) seen
              else (index, title) :: collect_with heading rest (S index) (title :: seen)
            else collect_with heading rest (S index) seen
        | None => collect_with heading rest (S index) seen
        end
  end.

Definition candidates (text : ustr) : list (nat * ustr) :=
  collect_with HeadingMatcher.match_heading (splitlines text) 0 [].

(** The candidate list obtained when the deduplication key is the raw
    title, before normalization. *)
Definition candidates_raw (text : ustr) : list (nat * ustr) :=
  collect_with HeadingMatcher.match_heading_raw (splitlines text) 0 [].

(** ["章节一"] *)
Definition placeholder_title : ustr := [31456; 33410; 19968]%N.

Fixpoint chapters_of (lines : list ustr) (total_lines : nat)
  (cands : list (nat * ustr)) : list ParsedChapter :=
  match cands with
  | [] => []
  | (line_index, t) :: rest =>
      let start := S line_index in
      let end_ := match rest with (l, _) :: _ => l | [] => total_lines end in
      let c := strip (join_lines (firstn (end_ - start) (skipn start lines))) in
      {| title := strip t; content := c |} :: chapters_of lines total_lines rest
  end.

Definition parse (text : ustr) : list ParsedChapter :=
  match text with
  | [] => []
  | _ =>
      let lines := splitlines text in
      match collect_with HeadingMatcher.match_heading lines 0 [] with
      | [] =>
          let combined := strip text in
          if ustr_eqb combined [] then []
          else [{| title := placeholder_title; content := combined |}]
      | cands => chapters_of lines (List.length lines) cands
      end
  end.

End ChapterParser.

(* ------------------------------------------------------------------ *)
(** ** Placeholder substitution of [ReportGenerator.generate_chapter] and
    [ReportGenerator.generate_chapter_with_text] *)

Module PromptComposer.
Import PyStr.

(** [s.replace(old, new)] for a non-empty [old]: one left-to-right scan,
    non-overlapping occurrences; after an occurrence the scan resumes
    behind it.  Each step consumes at least one code point. *)
Fixpoint replace_go (fuel : nat) (s old new : ustr) : ustr :=
  match fuel with
  | 0 => s
  | S fuel' =>
      match s with
      | [] => []
      | c :: s' =>
          if startswith s old
          then new ++ replace_go fuel' (skipn (List.length old) s) old new
          else c :: replace_go fuel' s' old new
      end
  end.

Definition replace (s old new : ustr) : ustr := replace_go (S (List.length s)) s old new.

Definition data_summary_token : ustr := u "{data_summary}".
Definition examples_text_token : ustr := u "{examples_text}".

(** [user_prompt = user_prompt_template.replace("{data_summary}", data_summary)]
    [user_prompt = user_prompt.replace("{examples_text}", examples_text if examples_text else "")] *)
Definition compose_user_prompt (user_prompt_template data_summary examples_text : ustr) : ustr :=
  let user_prompt := replace user_prompt_template data_summary_token data_summary in
  replace user_prompt examples_text_token
    (match examples_text with [] => [] | _ => examples_text end).

(** The composition read as one simultaneous pass over the template, each
    token replaced where it occurs in the template and inserted text never
    scanned again (the reading of the composer contract). *)
Fixpoint substitute_once_go (fuel : nat) (s data_summary examples_text : ustr) : ustr :=
  match fuel with
  | 0 => s
  | S fuel' =>
      match s with
      | [] => []
      | c :: s' =>
          if startswith s data_summary_token
          then data_summary
               ++ substitute_once_go fuel' (skipn (List.length data_summary_token) s)
                    data_summary examples_text
          else if startswith s examples_text_token
          then examples_text
               ++ substitute_once_go fuel' (skipn (List.length examples_text_token) s)
                    data_summary examples_text
          else c :: substitute_once_go fuel' s' data_summary examples_text
      end
  end.

Definition substitute_once (t data_summary examples_text : ustr) : ustr :=
  substitute_once_go (S (List.length t)) t data_summary examples_text.

(** A template read as a sequence of literal text and the two tokens. *)
Inductive piece :=
| Text (x : ustr)
| DataSummary
| ExamplesText.

Definition piece_text (p : piece) : ustr :=
  match p with
  | Text x => x
  | DataSummary => data_summary_token
  | ExamplesText => examples_text_token
  end.

Definition render (ps : list piece) : ustr := flat_map piece_text ps.

(** No suffix of [x] can begin an occurrence of [tok]: none starts with
    [tok] and none is a prefix of it. *)
Fixpoint token_free (tok x : ustr) : bool :=
  match x with
  | [] => true
  | c :: x' => negb (startswith (c :: x') tok || startswith tok (c :: x')) && token_free tok x'
  end.

(** No suffix of [x] is a non-empty proper prefix of [tok]: an occurrence
    of [tok] in [x ++ y] never starts in [x] and ends in [y]. *)
Fixpoint no_partial (tok x : ustr) : bool :=
  match x with
  | [] => true
  | c :: x' =>
      (negb (startswith tok (c :: x')) || (List.length tok <=? List.length (c :: x'))%nat)
      && no_partial tok x'
  end.

Definition text_ok (p : piece) : bool :=
  match p with
  | Text x => token_free data_summary_token x && token_free examples_text_token x
  | _ => true
  end.

(** What a piece becomes after the first [replace]. *)
Definition first_pass_piece (data_summary : ustr) (p : piece) : ustr :=
  match p with
  | Text x => x
  | DataSummary => data_summary
  | ExamplesText => examples_text_token
  end.

(** What a piece becomes after both [replace] calls: an inserted data
    summary has its [{examples_text}] tokens replaced, inserted examples
    text is kept as is. *)
Definition both_passes_piece (data_summary examples_text : ustr) (p : piece) : ustr :=
  match p with
  | Text x => x
  | DataSummary => replace data_summary examples_text_token examples_text
  | ExamplesText => examples_text
  end.

End PromptComposer.

(* ------------------------------------------------------------------ *)
(** ** [PromptManager]: template sets and their store *)

Module PromptManager.

(** A stored template dictionary. *)
Record template := mkTemplate {
  id : string;
  name : string;
  chapter : string;
  system_prompt : string;
  user_prompt_template : string;
  is_default : bool;
  created_at : string;
  updated_at : string
}.

(** [Dict[str, List[Dict]]], in insertion order. *)
Definition tset := list (string * list template).

(** [templates.get(chapter)] *)
Fixpoint get (t : tset) (ch : string) : option (list template) :=
  match t with
  | [] => None
  | (k, v) :: t' => if String.eqb k ch then Some v else get t' ch
  end.

(** [templates.get(chapter, [])] *)
Definition get_or_nil (t : tset) (ch : string) : list template :=
  match get t ch with Some l => l | None => [] end.

(** [templates[chapter] = l]: an existing key keeps its position, a new
    key goes last. *)
Fixpoint set (t : tset) (ch : string) (l : list template) : tset :=
  match t with
  | [] => [(ch, l)]
  | (k, v) :: t' => if String.eqb k ch then (k, l) :: t' else (k, v) :: set t' ch l
  end.

(** [ProjectManager.DEFAULT_PROJECT_ID] and [resolve_project_id]. *)
Definition DEFAULT_PROJECT_ID : string := "default".

Definition resolve_project_id (project_id : string) : string :=
  if String.eqb project_id "" then DEFAULT_PROJECT_ID else project_id.

(** The [templates.json] file of a project. *)
Inductive stored := Missing | Corrupt | Valid (t : tset).

Definition store := string -> stored.

(** [_save_all_templates(project_id, templates)] *)
Definition save (st : store) (project_id : string) (t : tset) : store :=
  fun q => if String.eqb q (resolve_project_id project_id) then Valid t else st q.

Fixpoint update_nth {A : Type} (n : nat) (f : A -> A) (l : list A) : list A :=
  match n, l with
  | _, [] => []
  | 0, x :: l' => f x :: l'
  | S n', x :: l' => x :: update_nth n' f l'
  end.

Definition set_default (b : bool) (x : template) : template :=
  {| id := x.(id); name := x.(name); chapter := x.(chapter);
     system_prompt := x.(system_prompt);
     user_prompt_template := x.(user_prompt_template);
     is_default := b; created_at := x.(created_at); updated_at := x.(updated_at) |}.

(** First index of a template with the given id. *)
Fixpoint index_of (template_id : string) (l : list template) : option nat :=
  match l with
  | [] => None
  | x :: l' =>
      if String.eqb x.(id) template_id then Some 0
      else option_map S (index_of template_id l')
  end.

(** [for chapter, chapter_templates in templates.items():
       for index, template in enumerate(chapter_templates):
           if template['id'] == template_id: ...]
    gives the entry position, its chapter, its list and the index. *)
Fixpoint locate_from (k : nat) (t : tset) (template_id : string)
  : option (nat * string * list template * nat) :=
  match t with
  | [] => None
  | (ch, l) :: t' =>
      match index_of template_id l with
      | Some i => Some (k, ch, l, i)
      | None => locate_from (S k) t' template_id
      end
  end.

Definition locate (t : tset) (template_id : string) := locate_from 0 t template_id.

Definition default_id (ch : string) : string := "default_" ++ ch.

Section Builtins.

(** [_build_default_templates()] and [get_canonical_template(chapter)]. *)
Variable default_templates : tset.
Variable canonical_template : string -> option template.

Definition initial_templates (project_id : string) : tset :=
  if String.eqb project_id DEFAULT_PROJECT_ID then default_templates else [].

(** One iteration of [for chapter, default_list in defaults.items()]. *)
Definition seed_chapter (acc : tset * bool) (entry : string * list template) : tset * bool :=
  let (ch, default_list) := entry in
  let (t, updated) := acc in
  match get t ch with
  | None | Some [] => (set t ch default_list, true)
  | Some l =>
      if existsb (fun x => String.eqb x.(id) (default_id ch)) l then (t, updated)
      else match canonical_template ch with
           | Some d => (set t ch (d :: l), true)
           | None => (t, updated)
           end
  end.

(** [load_all_templates(project_id)]: the loaded set, and the store after
    the saves it performs. *)
Definition load_all_templates (st : store) (project_id : string) : tset * store :=
  let pid := resolve_project_id project_id in
  match st pid with
  | Missing | Corrupt =>
      let t := initial_templates pid in (t, save st pid t)
  | Valid t =>
      if String.eqb pid DEFAULT_PROJECT_ID then
        let (t', updated) := fold_left seed_chapter default_templates (t, false) in
        (t', if updated then save st pid t' else st)
      else (t, st)
  end.

(** The default-flag lookup of [get_default_template] on one list. *)
Fixpoint flagged_or_first_go (l : list template) : option template :=
  match l with
  | [] => None
  | x :: l' => if x.(is_default) then Some x else flagged_or_first_go l'
  end.

Definition flagged_or_first (l : list template) : option template :=
  match flagged_or_first_go l with
  | Some x => Some x
  | None => hd_error l
  end.

(** [get_default_template(project_id, chapter)] *)
Definition get_default_template (st : store) (project_id chapter : string)
  : option template * store :=
  let (t, st1) := load_all_templates st project_id in
  let chapter_templates := get_or_nil t chapter in
  match chapter_templates with
  | _ :: _ => (flagged_or_first chapter_templates, st1)
  | [] =>
      if negb (String.eqb project_id DEFAULT_PROJECT_ID) then
        let (dt, st2) := load_all_templates st1 DEFAULT_PROJECT_ID in
        match get_or_nil dt chapter with
        | x :: _ => (Some x, st2)
        | [] => (None, st2)
        end
      else (None, st1)
  end.

(** The template set built by [create_template] from the loaded set. *)
Definition create_in (t : tset) (chapter_ : string) (new_template : template) : tset :=
  let t1 :=
    if new_template.(is_default) then
      match get t chapter_ with
      | Some l => set t chapter_ (map (set_default false) l)
      | None => t
      end
    else t in
  set t1 chapter_ (get_or_nil t1 chapter_ ++ [new_template]).

(** [create_template(...)]; [template_id] is the fresh [uuid4] and
    [timestamp] the current time. *)
Definition create_template (st : store) (project_id chapter_ name_ system_prompt_
  user_prompt_template_ : string) (is_default_ : bool) (template_id timestamp : string)
  : template * store :=
  let (t, st1) := load_all_templates st project_id in
  let new_template :=
    {| id := template_id; name := name_; chapter := chapter_;
       system_prompt := system_prompt_; user_prompt_template := user_prompt_template_;
       is_default := is_default_; created_at := timestamp; updated_at := timestamp |} in
  (new_template, save st1 project_id (create_in t chapter_ new_template)).

Definition update_fields (name_ system_prompt_ user_prompt_template_ : option string)
  (is_default_ : option bool) (timestamp : string) (x : template) : template :=
  {| id := x.(id);
     name := match name_ with Some v => v | None => x.(name) end;
     chapter := x.(chapter);
     system_prompt := match system_prompt_ with Some v => v | None => x.(system_prompt) end;
     user_prompt_template :=
       match user_prompt_template_ with Some v => v | None => x.(user_prompt_template) end;
     is_default := match is_default_ with Some b => b | None => x.(is_default) end;
     created_at := x.(created_at);
     updated_at := timestamp |}.

(** The template set built by [update_template] from the loaded set, with
    the updated template; [None] when no template has the id. *)
Definition update_in (t : tset) (template_id : string)
  (name_ system_prompt_ user_prompt_template_ : option string)
  (is_default_ : option bool) (timestamp : string) : option (template * tset) :=
  match locate t template_id with
  | None => None
  | Some (k, ch, l, i) =>
      let l1 := match is_default_ with
                | Some true => map (set_default false) l
                | _ => l
                end in
      let l2 := update_nth i (update_fields name_ system_prompt_ user_prompt_template_
                                 is_default_ timestamp) l1 in
      match nth_error l2 i with
      | Some x => Some (x, update_nth k (fun e => (fst e, l2)) t)
      | None => None
      end
  end.

Definition update_template (st : store) (project_id template_id : string)
  (name_ system_prompt_ user_prompt_template_ : option string)
  (is_default_ : option bool) (timestamp : string) : option template * store :=
  let (t, st1) := load_all_templates st project_id in
  match update_in t template_id name_ system_prompt_ user_prompt_template_ is_default_ timestamp with
  | Some (x, t') => (Some x, save st1 project_id t')
  | None => (None, st1)
  end.

(** [chapter_templates.pop(index)] followed by the default promotion;
    [None] when the id is absent or is the only template of its list. *)
Definition delete_in (t : tset) (template_id : string) : option tset :=
  match locate t template_id with
  | None => None
  | Some (k, ch, l, i) =>
      if Nat.eqb (List.length l) 1 then None
      else
        let remaining := firstn i l ++ skipn (S i) l in
        let removed_default :=
          match nth_error l i with Some x => x.(is_default) | None => false end in
        let l' := if removed_default
                  then match remaining with
                       | x :: r => set_default true x :: r
                       | [] => remaining
                       end
                  else remaining in
        Some (update_nth k (fun e => (fst e, l')) t)
  end.

Definition delete_template (st : store) (project_id template_id : string) : bool * store :=
  let (t, st1) := load_all_templates st project_id in
  match delete_in t template_id with
  | Some t' => (true, save st1 project_id t')
  | None => (false, st1)
  end.

End Builtins.

End PromptManager.

(* ================================================================== *)
(** * Properties *)

(* ------------------------------------------------------------------ *)
(** ** Lemmas on the Python string primitives *)

Module PyStrFacts.
Import PyStr.

Definition is_prefix (a b : ustr) : Prop := exists r, b = a ++ r.

Lemma is_prefix_refl s : is_prefix s s.
Proof. exists []; now rewrite app_nil_r. Qed.

Lemma is_prefix_trans a b c : is_prefix a b -> is_prefix b c -> is_prefix a c.
Proof. intros [r1 ->] [r2 ->]. exists (r1 ++ r2). now rewrite app_assoc. Qed.

Lemma is_prefix_firstn n s : is_prefix (firstn n s) s.
Proof. exists (skipn n s). now rewrite firstn_skipn. Qed.

Lemma is_prefix_app_l a b s : is_prefix b s -> is_prefix (a ++ b) (a ++ s).
Proof. intros [r ->]. exists r. now rewrite app_assoc. Qed.

Lemma lstrip_suffix s : exists w, s = w ++ lstrip s.
Proof.
  induction s as [|c s IH]; simpl.
  - now exists [].
  - destruct (isspace c).
    + destruct IH as [w Hw]. exists (c :: w). simpl. now f_equal.
    + now exists [].
Qed.

Lemma rstrip_prefix s : is_prefix (rstrip s) s.
Proof.
  unfold rstrip. destruct (lstrip_suffix (rev s)) as [w Hw].
  exists (rev w). rewrite <- rev_app_distr, <- Hw. now rewrite rev_involutive.
Qed.

Lemma startswith_spec s p : startswith s p = true -> s = p ++ skipn (List.length p) s.
Proof.
  revert s; induction p as [|c p IH]; intros s H; simpl; [reflexivity|].
  destruct s as [|d s]; simpl in H; [discriminate|].
  apply andb_true_iff in H as [Hc Hs]. apply N.eqb_eq in Hc; subst d.
  simpl. f_equal. now apply IH.
Qed.

Lemma startswith_app p r : startswith (p ++ r) p = true.
Proof. induction p as [|c p IH]; simpl; [reflexivity|]. now rewrite N.eqb_refl. Qed.

Lemma first_some_in {A B} (f : A -> option B) l b :
  first_some f l = Some b -> exists x, In x l /\ f x = Some b.
Proof.
  induction l as [|x l IH]; simpl; [discriminate|].
  destruct (f x) eqn:E; intros H.
  - inversion H; subst. eauto.
  - destruct (IH H) as [y [Hy Hf]]. eauto.
Qed.

(** A loop over [seq a n] returns at its first successful iteration. *)
Lemma first_some_seq {B} (f : nat -> option B) a n :
  (first_some f (seq a n) = None /\ forall i, a <= i < a + n -> f i = None)
  \/ exists i b, a <= i < a + n /\ f i = Some b /\ first_some f (seq a n) = Some b
                 /\ forall j, a <= j < i -> f j = None.
Proof.
  revert a; induction n as [|n IH]; intros a; simpl.
  - left. split; [reflexivity|]. intros; lia.
  - destruct (f a) as [b|] eqn:E.
    + right. exists a, b. split; [lia|]. split; [assumption|]. split; [reflexivity|].
      intros; lia.
    + destruct (IH (S a)) as [[H1 H2]|[i [b [Hi [Hf [Hs Hj]]]]]].
      * left. split; [assumption|]. intros i Hi.
        destruct (Nat.eq_dec i a); [subst; assumption|]. apply H2; lia.
      * right. exists i, b. split; [lia|]. split; [assumption|]. split; [assumption|].
        intros j Hj'. destruct (Nat.eq_dec j a); [subst; assumption|]. apply Hj; lia.
Qed.

Lemma repeat_str_length p k : List.length (repeat_str p k) = k * List.length p.
Proof. induction k; simpl; [reflexivity|]. rewrite length_app, IHk. lia. Qed.

End PyStrFacts.

(* ------------------------------------------------------------------ *)
(** ** Title normalization *)

Module TitleNormalizerFacts.
Import PyStr PyStrFacts TitleNormalizer.

Lemma strip_trailing_num_prefix fuel num c :
  is_prefix (strip_trailing_num fuel num c) c.
Proof.
  revert c; induction fuel as [|fuel IH]; intros c; simpl; [apply is_prefix_refl|].
  destruct c as [|x c']; [apply is_prefix_refl|].
  destruct (endswith _ _); [|apply is_prefix_refl].
  eapply is_prefix_trans; [apply IH|].
  eapply is_prefix_trans; [apply is_prefix_firstn|apply rstrip_prefix].
Qed.

Lemma exact_repetition_prefix t s : exact_repetition t = Some s -> is_prefix s t.
Proof.
  unfold exact_repetition. intros H. apply first_some_in in H as [d [_ Hd]].
  unfold exact_repetition_body in Hd. destruct (Nat.eqb _ 0); [|discriminate].
  destruct (ustr_eqb _ _); [|discriminate]. inversion Hd; subst. apply is_prefix_firstn.
Qed.

Lemma numbered_prefix_prefix t s : numbered_prefix t = Some s -> is_prefix s t.
Proof.
  unfold numbered_prefix. intros H. apply first_some_in in H as [num [_ Hn]].
  unfold numbered_prefix_step in Hn.
  destruct (startswith t [num; dun]) eqn:Hst; [|discriminate].
  apply startswith_spec in Hst.
  remember (skipn (List.length [num; dun]) t) as after eqn:Ha.
  destruct (1 <? count t [num; dun]); [|discriminate].
  destruct (0 <? find after [num; dun])%Z.
  - injection Hn as <-. rewrite Hst.
    apply (is_prefix_app_l [num; dun]), is_prefix_firstn.
  - destruct (0 <? find after [num])%Z; [|discriminate].
    set (c := firstn (Z.to_nat (find after [num])) after) in Hn.
    pose proof (strip_trailing_num_prefix (S (List.length c)) num c) as Hc.
    remember (strip_trailing_num (S (List.length c)) num c) as r eqn:Hr.
    injection Hn as <-. rewrite Hst. apply (is_prefix_app_l [num; dun]).
    eapply is_prefix_trans; [apply Hc|apply is_prefix_firstn].
Qed.

Lemma cut_point_scan_prefix t s : cut_point_scan t = Some s -> is_prefix s t.
Proof.
  unfold cut_point_scan. intros H. apply first_some_in in H as [c [_ Hc]].
  unfold cut_point_body in Hc.
  destruct (_ && _); [discriminate|].
  destruct (_ <? _); [|discriminate]. inversion Hc; subst. apply is_prefix_firstn.
Qed.

(** Every strategy of [_clean_repeated_title] returns a prefix of the
    title, or the title itself. *)
Lemma clean_repeated_title_prefix t : is_prefix (clean_repeated_title t) t.
Proof.
  unfold clean_repeated_title. destruct t as [|c t']; [apply is_prefix_refl|].
  destruct (exact_repetition _) eqn:E1; [now apply exact_repetition_prefix|].
  destruct (numbered_prefix _) eqn:E2; [now apply numbered_prefix_prefix|].
  destruct (cut_point_scan _) eqn:E3; [now apply cut_point_scan_prefix|].
  apply is_prefix_refl.
Qed.

End TitleNormalizerFacts.

Module TitleNormalizerClaims.
Import PyStr PyStrFacts TitleNormalizer TitleNormalizerFacts.

Lemma clean_repeated_title_cons t :
  t <> [] ->
  clean_repeated_title t =
  match exact_repetition t with
  | Some s => s
  | None =>
      match numbered_prefix t with
      | Some s => s
      | None => match cut_point_scan t with Some s => s | None => t end
      end
  end.
Proof. destruct t; [congruence|reflexivity]. Qed.

Lemma exact_repetition_body_some t d b :
  exact_repetition_body t d = Some b ->
  b = firstn d t /\ List.length t mod d = 0
  /\ repeat_str (firstn d t) (List.length t / d) = t.
Proof.
  unfold exact_repetition_body.
  destruct (Nat.eqb_spec (List.length t mod d) 0); [|discriminate].
  destruct (ustr_eqb _ _) eqn:E; [|discriminate].
  apply ustr_eqb_eq in E. intros H; inversion H; auto.
Qed.

Lemma exact_repetition_body_none t d :
  exact_repetition_body t d = None ->
  List.length t mod d = 0 -> repeat_str (firstn d t) (List.length t / d) <> t.
Proof.
  unfold exact_repetition_body. intros H Hm Heq.
  rewrite Hm in H. simpl in H.
  destruct (ustr_eqb _ _) eqn:E; [discriminate|].
  rewrite Heq in E. unfold ustr_eqb in E.
  destruct (list_eq_dec N.eq_dec t t); congruence.
Qed.

(** [cut_point_body] in closed form, for cut points inside the title. *)
Definition accepts_cut (title : ustr) (c : nat) : bool :=
  (0 <? c) && startswith (skipn c title) (firstn (Nat.min 5 c) title)
  && (5 * (List.length title - c) <? 3 * c).

Lemma cut_point_body_spec title c :
  c < List.length title ->
  cut_point_body title c = if accepts_cut title c then Some (firstn c title) else None.
Proof.
  intros Hc. unfold cut_point_body, accepts_cut.
  rewrite length_skipn, length_firstn, firstn_firstn.
  replace (Nat.min c (List.length title)) with c by lia.
  replace (Nat.min (Nat.min 5 c) c) with (Nat.min 5 c) by lia.
  destruct c as [|c'].
  - simpl. destruct (5 * (List.length title - 0) <? 0) eqn:E; [|reflexivity].
    apply Nat.ltb_lt in E; lia.
  - assert (Hne : ustr_eqb (firstn (S c') title) [] = false).
    { destruct title; simpl in *; [lia|reflexivity]. }
    rewrite Hne. simpl negb. cbn [andb]. simpl (0 <? S c').
    destruct (startswith _ _); reflexivity.
Qed.

(** The cut-point scan as the spec words it: accept a cut when the
    remainder is short and does NOT start with the candidate's opening
    characters. *)
Definition spec_cut_point_scan (title : ustr) : option ustr :=
  first_some
    (fun cut_point =>
       let candidate := firstn cut_point title in
       let rest := skipn cut_point title in
       if (0 <? cut_point)
          && negb (startswith rest (firstn (Nat.min 5 (List.length candidate)) candidate))
          && (5 * List.length rest <? 3 * List.length candidate)
       then Some candidate else None)
    (range (List.length title / 3) (List.length title)).

(** C4 (counterexample): on ["abcdefgh"] the first two strategies fail, the
    scan worded by the spec accepts the cut after ["abcdef"], but the code
    returns the title unchanged: it only accepts cut points whose remainder
    DOES start with the candidate's first characters. *)
Lemma cut_point_scan_spec_reading_fails :
  exact_repetition (u "abcdefgh") = None
  /\ numbered_prefix (u "abcdefgh") = None
  /\ spec_cut_point_scan (u "abcdefgh") = Some (u "abcdef")
  /\ clean_repeated_title (u "abcdefgh") = u "abcdefgh"
  /\ clean_repeated_title (u "abcdefgh") <> u "abcdef".
Proof. vm_compute. repeat split; congruence. Qed.

(** C4 (amended): when the exact-repetition and numbered-prefix strategies
    fail, normalization returns the prefix up to the first cut point [c] in
    [range(len // 3, len)] with [c > 0], a remainder shorter than 60% of
    [c] and a remainder that starts with the first [min(5, c)] characters
    of the prefix; when no cut point qualifies, the title is unchanged. *)
Theorem clean_repeated_title_cut_point t :
  exact_repetition t = None -> numbered_prefix t = None ->
  (exists c, List.length t / 3 <= c < List.length t /\ accepts_cut t c = true
             /\ (forall c', List.length t / 3 <= c' < c -> accepts_cut t c' = false)
             /\ clean_repeated_title t = firstn c t)
  \/ ((forall c, List.length t / 3 <= c < List.length t -> accepts_cut t c = false)
      /\ clean_repeated_title t = t).
Proof.
  intros H1 H2. destruct t as [|x t'] eqn:Et.
  - right. split; [simpl; intros; lia|reflexivity].
  - rewrite <- Et in *. rewrite clean_repeated_title_cons by congruence.
    rewrite H1, H2. unfold cut_point_scan, range.
    destruct (first_some_seq (cut_point_body t) (List.length t / 3)
                (List.length t - List.length t / 3))
      as [[Hn Hall]|[c [b [Hc [Hb [Hs Hj]]]]]].
    + right. rewrite Hn. split; [|reflexivity].
      intros c Hc. specialize (Hall c ltac:(lia)).
      rewrite cut_point_body_spec in Hall by lia.
      destruct (accepts_cut t c); [discriminate|reflexivity].
    + left. rewrite Hs. exists c.
      assert (Hlt : c < List.length t) by lia.
      rewrite cut_point_body_spec in Hb by exact Hlt.
      destruct (accepts_cut t c) eqn:Ea; [|discriminate].
      injection Hb as <-. split; [lia|]. split; [reflexivity|]. split; [|reflexivity].
      intros c' Hc'. specialize (Hj c' Hc').
      rewrite cut_point_body_spec in Hj by lia.
      destruct (accepts_cut t c'); [discriminate|reflexivity].
Qed.

(** C5 (counterexample): ["aa"] repeated twice normalizes to ["a"], not to
    ["aa"]. *)
Lemma clean_repeated_title_square_aa :
  clean_repeated_title (repeat_str (u "aa") 2) = u "a" /\ u "a" <> u "aa".
Proof. vm_compute. split; congruence. Qed.

(** C5 (amended): for a non-empty [p] and [k >= 2], normalizing [p * k]
    returns its shortest exact-repetition unit: the prefix of length [d],
    the least [d >= 1] dividing the length such that the string is that
    prefix repeated; [d <= len(p)], so the result is a prefix of [p], and it
    is [p] itself when no shorter unit exists. *)
Theorem clean_repeated_title_power (p : ustr) (k : nat) :
  p <> [] -> 2 <= k ->
  let s := repeat_str p k in
  exists d, 1 <= d <= List.length p
    /\ clean_repeated_title s = firstn d s
    /\ firstn d s = firstn d p
    /\ List.length s mod d = 0
    /\ repeat_str (firstn d s) (List.length s / d) = s
    /\ (forall d', 1 <= d' < d -> List.length s mod d' = 0 ->
                   repeat_str (firstn d' s) (List.length s / d') <> s).
Proof.
  intros Hp Hk s.
  assert (Hlp : 1 <= List.length p) by (destruct p; [congruence|simpl; lia]).
  assert (Hls : List.length s = k * List.length p) by apply repeat_str_length.
  assert (Hs_app : s = p ++ repeat_str p (k - 1)).
  { unfold s. destruct k as [|k']; [lia|]. simpl. now rewrite Nat.sub_0_r. }
  assert (Hfp : exact_repetition_body s (List.length p) = Some p).
  { unfold exact_repetition_body. rewrite Hls, Nat.Div0.mod_mul, Nat.div_mul by lia.
    simpl Nat.eqb.
    assert (Hf : firstn (List.length p) s = p).
    { rewrite Hs_app, firstn_app, Nat.sub_diag, firstn_all. simpl. apply app_nil_r. }
    rewrite Hf.
    assert (E : ustr_eqb (repeat_str p k) s = true) by (apply ustr_eqb_eq; reflexivity).
    rewrite E. reflexivity. }
  assert (Hrange : List.length p <= List.length s / 2).
  { apply Nat.div_le_lower_bound; nia. }
  rewrite clean_repeated_title_cons.
  2:{ intros E. rewrite E in Hls. simpl in Hls. lia. }
  unfold exact_repetition, range.
  destruct (first_some_seq (exact_repetition_body s) 1 (List.length s / 2 + 1 - 1))
    as [[_ Hall]|[d [b [Hd [Hb [Hfs Hj]]]]]].
  - rewrite Hall in Hfp by lia. discriminate.
  - rewrite Hfs.
    assert (Hdp : d <= List.length p).
    { destruct (Nat.le_gt_cases d (List.length p)) as [|Hgt]; [assumption|].
      rewrite Hj in Hfp by lia. discriminate. }
    apply exact_repetition_body_some in Hb as [-> [Hm Hr]].
    exists d. split; [lia|]. split; [reflexivity|]. split.
    { rewrite Hs_app, firstn_app. replace (d - List.length p) with 0 by lia.
      simpl. now rewrite app_nil_r. }
    split; [assumption|]. split; [assumption|].
    intros d' Hd' Hm'. apply exact_repetition_body_none; [apply Hj; lia|assumption].
Qed.

(** C6 (counterexample): with [q = "一、a一、"], [normalize(q q)] is [q] by
    exact repetition, and [normalize(q)] is ["一、a"] by the numbered-prefix
    strategy. *)
Lemma clean_repeated_title_not_idempotent :
  let q := [19968; 12289; 97; 19968; 12289]%N in
  clean_repeated_title (q ++ q) = q
  /\ clean_repeated_title (clean_repeated_title (q ++ q)) = [19968; 12289; 97]%N
  /\ clean_repeated_title (clean_repeated_title (q ++ q)) <> clean_repeated_title (q ++ q).
Proof. vm_compute. repeat split; congruence. Qed.

(** C6 (amended): normalizing a normalized title again yields a prefix of it
    (possibly shorter): normalization is not idempotent, but repeating it
    never lengthens the title. *)
Theorem clean_repeated_title_twice_prefix s :
  is_prefix (clean_repeated_title (clean_repeated_title s)) (clean_repeated_title s).
Proof. apply clean_repeated_title_prefix. Qed.

(** C10: [normalize(s)] is a prefix of [s]: every strategy returns the
    input or a slice of it starting at position 0. *)
Theorem clean_repeated_title_is_prefix s :
  exists r, s = clean_repeated_title s ++ r.
Proof. apply clean_repeated_title_prefix. Qed.

Lemma clean_repeated_title_cut_point_witness :
  exact_repetition (u "abcdefghiabcde") = None /\ numbered_prefix (u "abcdefghiabcde") = None
  /\ clean_repeated_title (u "abcdefghiabcde") = u "abcdefghi"
  /\ ((exists c, List.length (u "abcdefghiabcde") / 3 <= c < List.length (u "abcdefghiabcde")
          /\ accepts_cut (u "abcdefghiabcde") c = true
          /\ (forall c', List.length (u "abcdefghiabcde") / 3 <= c' < c ->
                          accepts_cut (u "abcdefghiabcde") c' = false)
          /\ clean_repeated_title (u "abcdefghiabcde") = firstn c (u "abcdefghiabcde"))
      \/ ((forall c, List.length (u "abcdefghiabcde") / 3 <= c < List.length (u "abcdefghiabcde") ->
                     accepts_cut (u "abcdefghiabcde") c = false)
          /\ clean_repeated_title (u "abcdefghiabcde") = u "abcdefghiabcde")).
Proof.
  split; [vm_compute; reflexivity|]. split; [vm_compute; reflexivity|].
  split; [vm_compute; reflexivity|].
  apply clean_repeated_title_cut_point; vm_compute; reflexivity.
Defined.

Lemma clean_repeated_title_power_witness :
  u "ab" <> [] /\ 2 <= 2 /\
  (let s := repeat_str (u "ab") 2 in
   exists d, 1 <= d <= List.length (u "ab")
    /\ clean_repeated_title s = firstn d s
    /\ firstn d s = firstn d (u "ab")
    /\ List.length s mod d = 0
    /\ repeat_str (firstn d s) (List.length s / d) = s
    /\ (forall d', 1 <= d' < d -> List.length s mod d' = 0 ->
                   repeat_str (firstn d' s) (List.length s / d') <> s)).
Proof.
  split; [discriminate|]. split; [lia|].
  apply clean_repeated_title_power; [discriminate|lia].
Defined.

End TitleNormalizerClaims.

(* ------------------------------------------------------------------ *)
(** ** Segmentation *)

Module ChapterParserClaims.
Import PyStr PyStrFacts ChapterParser.

Lemma ustr_eqb_sym a b : ustr_eqb a b = ustr_eqb b a.
Proof.
  unfold ustr_eqb.
  destruct (list_eq_dec N.eq_dec a b), (list_eq_dec N.eq_dec b a); congruence.
Qed.

Lemma ustr_eqb_refl a : ustr_eqb a a = true.
Proof. now apply ustr_eqb_eq. Qed.

Lemma lstrip_nil_iff s : lstrip s = [] <-> forallb isspace s = true.
Proof.
  induction s as [|c s IH]; simpl; [tauto|].
  destruct (isspace c); simpl; [exact IH|]. split; discriminate.
Qed.

Lemma lstrip_head s c t : lstrip s = c :: t -> isspace c = false.
Proof.
  induction s as [|d s IH]; simpl; [discriminate|].
  destruct (isspace d) eqn:E; [exact IH|]. intros H; inversion H; subst; assumption.
Qed.

Lemma forallb_rev {A} (f : A -> bool) l : forallb f (rev l) = forallb f l.
Proof.
  induction l as [|a l IH]; simpl; [reflexivity|].
  rewrite forallb_app, IH. simpl. now rewrite andb_true_r, andb_comm.
Qed.

Lemma strip_nil_iff s : strip s = [] <-> forallb isspace s = true.
Proof.
  unfold strip, rstrip. rewrite lstrip_nil_iff, forallb_rev.
  destruct (lstrip (rev s)) as [|c t] eqn:E.
  - rewrite lstrip_nil_iff, forallb_rev in E. simpl. tauto.
  - pose proof (lstrip_head _ _ _ E) as Hc. simpl. rewrite Hc. simpl.
    split; [discriminate|].
    intros H. rewrite <- forallb_rev, <- (lstrip_nil_iff (rev s)) in H. congruence.
Qed.

Lemma splitlines_go_chars_n n : forall s cur line c,
  List.length s <= n ->
  In line (splitlines_go s cur) -> In c line -> In c s \/ In c cur.
Proof.
  induction n as [|n IH]; intros s cur line c Hn Hl Hc.
  - destruct s; [|simpl in Hn; lia]. simpl in Hl.
    destruct cur; simpl in Hl; [contradiction|].
    destruct Hl as [<-|[]]. right. now apply in_rev.
  - destruct s as [|d s]; simpl in Hl.
    + destruct cur; simpl in Hl; [contradiction|].
      destruct Hl as [<-|[]]. right. now apply in_rev.
    + simpl in Hn.
      destruct (d =? 13)%N.
      * destruct s as [|e s''].
        -- destruct Hl as [<-|[]]. right. now apply in_rev.
        -- destruct (e =? 10)%N; destruct Hl as [<-|Hl].
           ++ right. now apply in_rev.
           ++ destruct (IH s'' [] line c ltac:(simpl in Hn; lia) Hl Hc) as [H|[]].
              left. right. now right.
           ++ right. now apply in_rev.
           ++ destruct (IH (e :: s'') [] line c ltac:(lia) Hl Hc) as [H|[]].
              left. now right.
      * destruct (is_line_boundary d); [destruct Hl as [<-|Hl]|].
        -- right. now apply in_rev.
        -- destruct (IH s [] line c ltac:(lia) Hl Hc) as [H|[]]. left. now right.
        -- destruct (IH s (d :: cur) line c ltac:(lia) Hl Hc) as [H|[H|H]];
             [left; now right|left; now left|now right].
Qed.

Lemma splitlines_chars s line c : In line (splitlines s) -> In c line -> In c s.
Proof.
  intros Hl Hc. destruct (splitlines_go_chars_n (List.length s) s [] line c
                            (le_n _) Hl Hc) as [H|[]]. exact H.
Qed.

Lemma collect_with_nil heading lines index seen :
  (forall line, In line lines -> strip line <> [] -> heading (strip line) = None) ->
  collect_with heading lines index seen = [].
Proof.
  revert index; induction lines as [|l lines IH]; intros index H; cbn [collect_with];
    [reflexivity|].
  assert (H' : forall line, In line lines -> strip line <> [] -> heading (strip line) = None)
    by (intros line Hin; apply H; now right).
  destruct (ustr_eqb (strip l) []) eqn:E; [now apply IH|].
  rewrite H; [now apply IH|now left|].
  intros E'. rewrite E' in E. discriminate.
Qed.

(** C7: segmenting the empty or a whitespace-only text gives no chapter; a
    text with a non-whitespace character and no heading line gives exactly
    one chapter, at position (order) 0, titled ["章节一"], whose content is
    the whole stripped text. *)
Theorem parse_without_headings :
  parse [] = []
  /\ (forall text, forallb isspace text = true -> parse text = [])
  /\ (forall text, forallb isspace text = false ->
        (forall line, In line (splitlines text) -> strip line <> [] ->
                      HeadingMatcher.match_heading (strip line) = None) ->
        parse text = [{| title := placeholder_title; content := strip text |}]).
Proof.
  split; [reflexivity|]. split.
  - intros text Hsp. unfold parse. destruct text as [|x r] eqn:Et; [reflexivity|].
    rewrite <- Et in *.
    rewrite collect_with_nil.
    + assert (Hs : strip text = []) by now apply strip_nil_iff.
      rewrite Hs. reflexivity.
    + intros line Hin Hne. exfalso. apply Hne, strip_nil_iff, forallb_forall.
      intros c Hc. apply (proj1 (forallb_forall isspace text) Hsp).
      eapply splitlines_chars; eassumption.
  - intros text Hsp Hno. unfold parse. destruct text as [|x r] eqn:Et; [discriminate|].
    rewrite <- Et in *.
    rewrite collect_with_nil by assumption.
    destruct (ustr_eqb (strip text) []) eqn:E; [|reflexivity].
    apply ustr_eqb_eq, strip_nil_iff in E. congruence.
Qed.

Lemma parse_without_headings_witness :
  parse (u " plain text, no headings  ")
  = [{| title := placeholder_title; content := u "plain text, no headings" |}].
Proof.
  refine (proj2 (proj2 parse_without_headings) (u " plain text, no headings  ") _ _).
  - vm_compute. reflexivity.
  - intros line Hin _. vm_compute in Hin. destruct Hin as [<-|[]]. vm_compute. reflexivity.
Defined.

(** The title a line contributes: [None] for blank lines, lines matching
    no pattern, and matches with an empty title. *)
Definition line_heading (heading : ustr -> option ustr) (raw_line : ustr) : option ustr :=
  let line := strip raw_line in
  if ustr_eqb line [] then None
  else match heading line with
       | Some t => if ustr_eqb t [] then None else Some t
       | None => None
       end.

Definition same_title (h : option ustr) (t : ustr) : bool :=
  match h with Some t' => ustr_eqb t' t | None => false end.

(** Line [i] is kept, with its title [t], when it has a title [t] that no
    earlier line has. *)
Definition first_seen_at (hs : list (option ustr)) (i : nat) : list (nat * ustr) :=
  match nth i hs None with
  | Some t =>
      if existsb (fun j => same_title (nth j hs None) t) (seq 0 i) then [] else [(i, t)]
  | None => []
  end.

Definition first_seen (hs : list (option ustr)) : list (nat * ustr) :=
  flat_map (first_seen_at hs) (seq 0 (List.length hs)).

Lemma existsb_seq_nth {A} (f : A -> bool) (pre : list A) d : forall rest,
  existsb (fun j => f (nth j (pre ++ rest) d)) (seq 0 (List.length pre)) = existsb f pre.
Proof.
  induction pre as [|a pre IH] using rev_ind; intros rest; [reflexivity|].
  rewrite length_app, seq_app, !existsb_app, <- app_assoc, IH. f_equal.
  simpl List.length. rewrite Nat.add_0_l. cbn [seq existsb].
  rewrite app_nth2, Nat.sub_diag by lia. reflexivity.
Qed.

Lemma collect_with_first_seen heading lines : forall pre seen,
  (forall t, existsb (ustr_eqb t) seen = existsb (fun h => same_title h t) pre) ->
  collect_with heading lines (List.length pre) seen
  = flat_map (first_seen_at (pre ++ map (line_heading heading) lines))
             (seq (List.length pre) (List.length lines)).
Proof.
  induction lines as [|l lines IH]; intros pre seen Hseen; [reflexivity|].
  cbn [collect_with map List.length seq flat_map].
  set (hs := pre ++ line_heading heading l :: map (line_heading heading) lines).
  assert (Hhs : hs = (pre ++ [line_heading heading l]) ++ map (line_heading heading) lines)
    by (unfold hs; now rewrite <- app_assoc).
  assert (Hnth : nth (List.length pre) hs None = line_heading heading l)
    by (unfold hs; rewrite app_nth2, Nat.sub_diag by lia; reflexivity).
  assert (Hex : forall t, existsb (fun j => same_title (nth j hs None) t)
                            (seq 0 (List.length pre)) = existsb (ustr_eqb t) seen)
    by (intros t; unfold hs; rewrite Hseen;
        apply (existsb_seq_nth (fun h => same_title h t))).
  assert (Hrest : forall seen',
            (forall t, existsb (ustr_eqb t) seen'
                       = existsb (fun h => same_title h t) (pre ++ [line_heading heading l])) ->
            collect_with heading lines (S (List.length pre)) seen'
            = flat_map (first_seen_at hs) (seq (S (List.length pre)) (List.length lines))).
  { intros seen' H'. rewrite Hhs.
    replace (S (List.length pre)) with (List.length (pre ++ [line_heading heading l]))
      by (rewrite length_app; simpl; lia).
    now apply IH. }
  unfold first_seen_at at 1. rewrite Hnth.
  unfold line_heading at 1 in Hrest. unfold line_heading at 1.
  destruct (ustr_eqb (strip l) []) eqn:E1.
  { apply Hrest. intros t. rewrite existsb_app, Hseen. simpl. now rewrite orb_false_r. }
  destruct (heading (strip l)) as [t|] eqn:E2.
  2:{ apply Hrest. intros t. rewrite existsb_app, Hseen. simpl. now rewrite orb_false_r. }
  destruct (ustr_eqb t []) eqn:E3; simpl negb; cbn iota.
  { apply Hrest. intros t'. rewrite existsb_app, Hseen. simpl. now rewrite orb_false_r. }
  rewrite Hex.
  destruct (existsb (ustr_eqb t) seen) eqn:E4.
  - apply Hrest. intros t'. rewrite existsb_app, Hseen. simpl. rewrite orb_false_r.
    destruct (ustr_eqb t t') eqn:E5; [|now rewrite orb_false_r].
    apply ustr_eqb_eq in E5. subst t'. rewrite <- Hseen, E4. reflexivity.
  - simpl. f_equal. apply Hrest. intros t'. rewrite existsb_app, <- Hseen. simpl.
    rewrite orb_false_r, ustr_eqb_sym. apply orb_comm.
Qed.

(** C1 (counterexample): ["1.a"] and ["1.a1.a"] are two heading lines with
    different raw titles, but the second one normalizes to ["1.a"]: the
    code keeps only the first line, while deduplicating on raw titles keeps
    both. *)
Lemma candidates_dedup_not_raw :
  let text := u "1.a" ++ [10%N] ++ u "1.a1.a" in
  map fst (candidates text) = [0]
  /\ map fst (candidates_raw text) = [0; 1]
  /\ map fst (candidates text) <> map fst (candidates_raw text).
Proof. vm_compute. repeat split; congruence. Qed.

(** C1 (amended): the retained candidates are, in line order, exactly the
    lines whose title as returned by [_match_heading] (already normalized)
    is not the title of an earlier heading line: the deduplication key is
    the normalized title. *)
Theorem candidates_first_seen text :
  candidates text
  = first_seen (map (line_heading HeadingMatcher.match_heading) (splitlines text)).
Proof.
  unfold candidates, first_seen. rewrite length_map.
  apply (collect_with_first_seen _ _ [] []). reflexivity.
Qed.

End ChapterParserClaims.

(* ------------------------------------------------------------------ *)
(** ** Prompt composition *)

Module PromptComposerClaims.
Import PyStr PyStrFacts PromptComposer.

Lemma replace_go_fuel old new : old <> [] ->
  forall f g s, List.length s < f -> List.length s < g ->
  replace_go f s old new = replace_go g s old new.
Proof.
  intros Hold. destruct old as [|o os]; [congruence|].
  intros f. induction f as [|f IH]; intros g s Hf Hg; [lia|].
  destruct g as [|g]; [lia|]. destruct s as [|c s]; [reflexivity|].
  cbn [replace_go]. destruct (startswith (c :: s) (o :: os)) eqn:E.
  - f_equal. apply IH; simpl in *; rewrite length_skipn; simpl; lia.
  - f_equal. apply IH; simpl in *; lia.
Qed.

Lemma replace_nil old new : replace [] old new = [].
Proof. reflexivity. Qed.

Lemma replace_cons old new c s : old <> [] ->
  replace (c :: s) old new =
  if startswith (c :: s) old
  then new ++ replace (skipn (List.length old) (c :: s)) old new
  else c :: replace s old new.
Proof.
  intros Hold. unfold replace at 1. cbn [replace_go].
  destruct (startswith (c :: s) old); f_equal; apply replace_go_fuel; auto;
    destruct old as [|o os]; try congruence; simpl; rewrite ?length_skipn; simpl; lia.
Qed.

Definition avoids (z : N) (x : ustr) : bool := forallb (fun c => negb (c =? z)%N) x.

(** A stretch without the token's first code point is copied as is. *)
Lemma replace_app_avoid_first o os new x y :
  avoids o x = true ->
  replace (x ++ y) (o :: os) new = x ++ replace y (o :: os) new.
Proof.
  induction x as [|c x IH]; intros H; [reflexivity|].
  simpl in H. apply andb_true_iff in H as [Hc Hx].
  simpl app. rewrite replace_cons by discriminate.
  cbn [startswith]. apply negb_true_iff in Hc. rewrite N.eqb_sym, Hc. simpl.
  now rewrite IH.
Qed.

Lemma replace_avoid_first o os new y :
  avoids o y = true -> replace y (o :: os) new = y.
Proof.
  intros H. pose proof (replace_app_avoid_first o os new y [] H) as E.
  rewrite !app_nil_r in E. exact E.
Qed.

(** An occurrence is replaced and the scan resumes behind it. *)
Lemma replace_token_app old new y : old <> [] ->
  replace (old ++ y) old new = new ++ replace y old new.
Proof.
  intros Hold. destruct old as [|o os]; [congruence|].
  simpl app. rewrite replace_cons by discriminate.
  change (o :: os ++ y) with ((o :: os) ++ y).
  rewrite startswith_app, skipn_app, skipn_all, Nat.sub_diag. reflexivity.
Qed.

Lemma data_summary_token_first : data_summary_token = 123%N :: u "data_summary}".
Proof. reflexivity. Qed.
Lemma examples_text_token_first : examples_text_token = 123%N :: u "examples_text}".
Proof. reflexivity. Qed.

Lemma compose_examples_arg t ds ex :
  compose_user_prompt t ds ex = replace (replace t data_summary_token ds) examples_text_token ex.
Proof. unfold compose_user_prompt. now destruct ex. Qed.

(** C3 (counterexample): a [dataSummary] holding the text
    ["{examples_text}"] is rescanned by the second [replace]: the template
    ["{data_summary}"] composes to the examples text, whereas a
    non-rescanning substitution leaves ["{examples_text}"] in place. *)
Lemma compose_rescans_data_summary :
  compose_user_prompt data_summary_token examples_text_token (u "X") = u "X"
  /\ substitute_once data_summary_token examples_text_token (u "X") = examples_text_token
  /\ compose_user_prompt data_summary_token examples_text_token (u "X")
     <> substitute_once data_summary_token examples_text_token (u "X").
Proof. vm_compute. repeat split; congruence. Qed.

Lemma startswith_app_split s y p :
  startswith (s ++ y) p = true -> startswith s p = true \/ startswith p s = true.
Proof.
  revert s. induction p as [|c p IH]; intros s H; [now left|].
  destruct s as [|d s]; [now right|].
  simpl in H |- *. apply andb_true_iff in H as [Hc H].
  rewrite Hc, (N.eqb_sym d c), Hc. simpl. exact (IH s H).
Qed.

Lemma startswith_app_long s y p : (List.length p <= List.length s)%nat ->
  startswith (s ++ y) p = startswith s p.
Proof.
  revert s. induction p as [|c p IH]; intros s H; [reflexivity|].
  destruct s as [|d s]; [simpl in H; lia|].
  simpl in H |- *. rewrite IH by lia. reflexivity.
Qed.

Lemma startswith_short s p : (List.length s < List.length p)%nat -> startswith s p = false.
Proof.
  revert s. induction p as [|c p IH]; intros s H; [simpl in H; lia|].
  destruct s as [|d s]; [reflexivity|].
  simpl in H |- *. rewrite IH by lia. apply andb_false_r.
Qed.

(** Literal text from which no occurrence can start is copied as is. *)
Lemma replace_token_free tok v x y : tok <> [] -> token_free tok x = true ->
  replace (x ++ y) tok v = x ++ replace y tok v.
Proof.
  intros Htok. induction x as [|c x IH]; intros H; [reflexivity|].
  cbn [token_free] in H. apply andb_true_iff in H as [Hc Hx].
  apply negb_true_iff, orb_false_iff in Hc as [H1 H2].
  simpl app. rewrite replace_cons by exact Htok.
  destruct (startswith (c :: x ++ y) tok) eqn:E.
  - exfalso. change (c :: x ++ y) with ((c :: x) ++ y) in E.
    destruct (startswith_app_split _ _ _ E); congruence.
  - rewrite IH by exact Hx. reflexivity.
Qed.

Lemma no_partial_skipn tok n x : no_partial tok x = true -> no_partial tok (skipn n x) = true.
Proof.
  revert x. induction n as [|n IH]; intros x H; [exact H|].
  destruct x as [|c x]; [reflexivity|].
  cbn [no_partial] in H. cbn [skipn]. apply andb_true_iff in H as [_ H]. exact (IH x H).
Qed.

(** When no occurrence can straddle the end of [x], [replace] works on
    [x] and on what follows it separately. *)
Lemma replace_no_partial tok v y : tok <> [] ->
  forall n x, (List.length x <= n)%nat -> no_partial tok x = true ->
  replace (x ++ y) tok v = replace x tok v ++ replace y tok v.
Proof.
  intros Htok n. induction n as [|n IH]; intros x Hn Hx.
  - destruct x; [reflexivity|simpl in Hn; lia].
  - destruct x as [|c x]; [reflexivity|].
    pose proof Hx as Hx0. cbn [no_partial] in Hx. apply andb_true_iff in Hx as [Hh Hx].
    simpl app. rewrite !replace_cons by exact Htok.
    change (c :: x ++ y) with ((c :: x) ++ y).
    destruct (Nat.leb_spec (List.length tok) (List.length (c :: x))) as [Hle|Hlt].
    + rewrite startswith_app_long by exact Hle.
      destruct (startswith (c :: x) tok) eqn:E.
      * rewrite skipn_app.
        replace (List.length tok - List.length (c :: x))%nat with 0%nat by lia.
        simpl skipn at 2. rewrite <- app_assoc. f_equal.
        apply IH; [|apply no_partial_skipn; exact Hx0].
        rewrite length_skipn. destruct tok; [congruence|]. simpl in Hn |- *. lia.
      * simpl. f_equal. apply IH; [simpl in Hn; lia|exact Hx].
    + rewrite orb_false_r in Hh. apply negb_true_iff in Hh.
      rewrite (startswith_short (c :: x) tok Hlt).
      destruct (startswith ((c :: x) ++ y) tok) eqn:E.
      * exfalso. destruct (startswith_app_split _ _ _ E) as [E'|E'];
          [rewrite startswith_short in E' by exact Hlt|]; congruence.
      * simpl. f_equal. apply IH; [simpl in Hn; lia|exact Hx].
Qed.

Lemma data_summary_token_ne : data_summary_token <> [].
Proof. discriminate. Qed.
Lemma examples_text_token_ne : examples_text_token <> [].
Proof. discriminate. Qed.

(** The first [replace] substitutes the data summary for each
    [{data_summary}] token of the template and nothing else. *)
Lemma compose_first_pass ps ds : forallb text_ok ps = true ->
  replace (render ps) data_summary_token ds = flat_map (first_pass_piece ds) ps.
Proof.
  induction ps as [|p ps IH]; intros H; [reflexivity|].
  simpl in H. apply andb_true_iff in H as [Hp H].
  unfold render. simpl flat_map. fold (render ps).
  destruct p as [x| |]; simpl piece_text; simpl first_pass_piece.
  - apply andb_true_iff in Hp as [Hp _].
    rewrite replace_token_free by (exact data_summary_token_ne || exact Hp).
    now rewrite IH.
  - rewrite replace_token_app by exact data_summary_token_ne. now rewrite IH.
  - rewrite replace_token_free by (exact data_summary_token_ne || (vm_compute; reflexivity)).
    now rewrite IH.
Qed.

(** The second [replace], over the first one's result. *)
Lemma compose_second_pass ps ds ex :
  forallb text_ok ps = true -> no_partial examples_text_token ds = true ->
  replace (flat_map (first_pass_piece ds) ps) examples_text_token ex
  = flat_map (both_passes_piece ds ex) ps.
Proof.
  intros H Hds. induction ps as [|p ps IH]; [reflexivity|].
  simpl in H. apply andb_true_iff in H as [Hp H].
  simpl flat_map. destruct p as [x| |]; simpl first_pass_piece; simpl both_passes_piece.
  - apply andb_true_iff in Hp as [_ Hp].
    rewrite replace_token_free by (exact examples_text_token_ne || exact Hp).
    now rewrite IH.
  - rewrite (replace_no_partial _ _ _ examples_text_token_ne (List.length ds) ds
               (le_n _) Hds).
    now rewrite IH.
  - rewrite replace_token_app by exact examples_text_token_ne. now rewrite IH.
Qed.

(** C3 (amended): for a template made of literal text and the two tokens,
    where no suffix of a stretch of literal text can begin a token, the
    user prompt is obtained in two literal left-to-right passes: the first
    replaces each [{data_summary}] token of the template by [dataSummary]
    and keeps everything else; the second replaces [{examples_text}] by
    [examplesText] over that whole result.  When [dataSummary] does not end
    with a proper prefix of [{examples_text}], the result is the template
    with each [{data_summary}] replaced by [dataSummary] whose
    [{examples_text}] tokens are replaced (its [{data_summary}] tokens
    stay), and each [{examples_text}] replaced by [examplesText], which is
    never rescanned. *)
Theorem compose_user_prompt_two_passes ps ds ex :
  forallb text_ok ps = true ->
  compose_user_prompt (render ps) ds ex
    = replace (flat_map (first_pass_piece ds) ps) examples_text_token ex
  /\ (no_partial examples_text_token ds = true ->
      compose_user_prompt (render ps) ds ex = flat_map (both_passes_piece ds ex) ps).
Proof.
  intros H. rewrite compose_examples_arg, (compose_first_pass ps ds H).
  split; [reflexivity|]. intros Hds. exact (compose_second_pass ps ds ex H Hds).
Qed.

Lemma compose_user_prompt_two_passes_witness :
  let ps := [DataSummary; Text [10%N]; ExamplesText; Text ([10%N] ++ u "END")] in
  let ds := u "rows " ++ examples_text_token in
  let ex := u "see " ++ data_summary_token in
  forallb text_ok ps = true /\ no_partial examples_text_token ds = true
  /\ compose_user_prompt (render ps) ds ex = flat_map (both_passes_piece ds ex) ps
  /\ flat_map (both_passes_piece ds ex) ps
     = u "rows see " ++ data_summary_token ++ [10%N] ++ u "see " ++ data_summary_token
       ++ [10%N] ++ u "END".
Proof.
  intros ps ds ex.
  assert (H1 : forallb text_ok ps = true) by (vm_compute; reflexivity).
  assert (H2 : no_partial examples_text_token ds = true) by (vm_compute; reflexivity).
  split; [exact H1|]. split; [exact H2|]. split.
  - exact (proj2 (compose_user_prompt_two_passes ps ds ex H1) H2).
  - vm_compute. reflexivity.
Defined.

End PromptComposerClaims.

(* ------------------------------------------------------------------ *)
(** ** Template resolution and mutation *)

Module PromptManagerClaims.
Import PromptManager.

(** The built-in templates of [_build_default_templates] and
    [get_canonical_template], with their ids, chapters and flags as in the
    source; their prompt texts are elided (no property below reads them). *)
Definition builtin (ch : string) : template :=
  {| id := default_id ch; name := ""; chapter := ch; system_prompt := "";
     user_prompt_template := ""; is_default := true; created_at := ""; updated_at := "" |}.

Definition source_default_templates : tset :=
  [("chapter_1", [builtin "chapter_1"]); ("chapter_2", [builtin "chapter_2"]);
   ("chapter_3", [builtin "chapter_3"]); ("chapter_4", [builtin "chapter_4"])]%string.

Definition source_canonical_template (ch : string) : option template :=
  if existsb (String.eqb ch) ["chapter_1"; "chapter_2"; "chapter_3"; "chapter_4"]%string
  then Some (builtin ch) else None.

Definition tmpl (i : string) (d : bool) (ch : string) : template :=
  {| id := i; name := i; chapter := ch; system_prompt := ""; user_prompt_template := "";
     is_default := d; created_at := ""; updated_at := "" |}.

Lemma get_set_same t ch l : get (set t ch l) ch = Some l.
Proof.
  induction t as [|[k v] t IH]; simpl.
  - now rewrite String.eqb_refl.
  - destruct (String.eqb k ch) eqn:E; simpl; rewrite ?E; [reflexivity|exact IH].
Qed.

Lemma get_set_other t ch ch' l : ch <> ch' -> get (set t ch l) ch' = get t ch'.
Proof.
  intros Hne. induction t as [|[k v] t IH]; simpl.
  - apply String.eqb_neq in Hne. now rewrite Hne.
  - destruct (String.eqb k ch) eqn:E; simpl.
    + apply String.eqb_eq in E. subst k. apply String.eqb_neq in Hne. now rewrite Hne.
    + destruct (String.eqb k ch'); [reflexivity|exact IH].
Qed.

Lemma seed_step_keeps canonical ch L t upd e :
  existsb (fun x => String.eqb x.(id) (default_id ch)) L = true ->
  get t ch = Some L -> get (fst (seed_chapter canonical (t, upd) e)) ch = Some L.
Proof.
  intros HL Ht. destruct e as [k dl]. unfold seed_chapter.
  destruct (String.eqb_spec k ch) as [->|Hne].
  - rewrite Ht. destruct L as [|x L']; [discriminate|]. now rewrite HL.
  - destruct (get t k) as [[|y l]|]; simpl; try (now rewrite get_set_other).
    destruct (_ || _); [exact Ht|].
    destruct (canonical k); simpl; [now rewrite get_set_other|exact Ht].
Qed.

(** Seeding the root set never touches a chapter whose list already holds
    the built-in default id. *)
Lemma seed_keeps canonical ch L : existsb (fun x => String.eqb x.(id) (default_id ch)) L = true ->
  forall defaults t upd, get t ch = Some L ->
  get (fst (fold_left (seed_chapter canonical) defaults (t, upd))) ch = Some L.
Proof.
  intros HL defaults. induction defaults as [|e defaults IH]; intros t upd Ht; [exact Ht|].
  simpl fold_left. destruct (seed_chapter canonical (t, upd) e) as [t1 u1] eqn:Es.
  apply IH. change t1 with (fst (t1, u1)). rewrite <- Es.
  now apply seed_step_keeps.
Qed.

Lemma load_root_keeps defaults canonical st t0 ch L :
  st DEFAULT_PROJECT_ID = Valid t0 -> get t0 ch = Some L ->
  existsb (fun x => String.eqb x.(id) (default_id ch)) L = true ->
  get (fst (load_all_templates defaults canonical st DEFAULT_PROJECT_ID)) ch = Some L.
Proof.
  intros Hst Ht HL. unfold load_all_templates.
  change (resolve_project_id DEFAULT_PROJECT_ID) with DEFAULT_PROJECT_ID.
  rewrite Hst. change (String.eqb DEFAULT_PROJECT_ID DEFAULT_PROJECT_ID) with true. cbv iota.
  pose proof (seed_keeps canonical ch L HL defaults t0 false Ht) as H.
  destruct (fold_left (seed_chapter canonical) defaults (t0, false)) as [t' u].
  exact H.
Qed.

(** C2 (code bug): the root holds, for [chapter_1], the built-in template
    (no longer flagged) followed by a template flagged default.  The root
    itself resolves to the flagged one, but a project [p1] with no template
    of its own falls back to the first root entry. *)
Theorem get_default_template_fallback_takes_first defaults canonical :
  let d0 := tmpl (default_id "chapter_1") false "chapter_1" in
  let x1 := tmpl "t1" true "chapter_1" in
  let st : store := fun q =>
    if String.eqb q "default" then Valid [("chapter_1"%string, [d0; x1])]
    else if String.eqb q "p1" then Valid [] else Missing in
  fst (get_default_template defaults canonical st "p1" "chapter_1") = Some d0
  /\ fst (get_default_template defaults canonical st "default" "chapter_1") = Some x1
  /\ flagged_or_first [d0; x1] = Some x1
  /\ d0 <> x1.
Proof.
  intros d0 x1 st.
  assert (Hp : load_all_templates defaults canonical st "p1" = ([], st)) by reflexivity.
  assert (Hkeep : get (fst (load_all_templates defaults canonical st DEFAULT_PROJECT_ID)) "chapter_1"
                  = Some [d0; x1]).
  { apply load_root_keeps with (t0 := [("chapter_1"%string, [d0; x1])]); reflexivity. }
  unfold get_default_template. rewrite Hp. cbn -[load_all_templates].
  change (load_all_templates defaults canonical st "default")
    with (load_all_templates defaults canonical st DEFAULT_PROJECT_ID).
  destruct (load_all_templates defaults canonical st DEFAULT_PROJECT_ID) as [t' st'].
  simpl in Hkeep. unfold get_or_nil. rewrite Hkeep.
  repeat split; try reflexivity. intros H. injection H as Hid. discriminate Hid.
Qed.

Lemma index_of_nth tid l i : index_of tid l = Some i ->
  exists x, nth_error l i = Some x /\ x.(id) = tid.
Proof.
  revert i. induction l as [|y l IH]; intros i H; simpl in H; [discriminate|].
  destruct (String.eqb_spec y.(id) tid) as [E|E].
  - injection H as <-. now exists y.
  - destruct (index_of tid l) as [j|] eqn:Ej; simpl in H; [|discriminate].
    injection H as <-. exact (IH j eq_refl).
Qed.

Lemma locate_from_nth k0 t tid k ch l i : locate_from k0 t tid = Some (k, ch, l, i) ->
  k0 <= k /\ nth_error t (k - k0) = Some (ch, l) /\ index_of tid l = Some i.
Proof.
  revert k0. induction t as [|[c m] t IH]; intros k0 H; simpl in H; [discriminate|].
  destruct (index_of tid m) as [j|] eqn:Ej.
  - injection H as <- <- <- <-. rewrite Nat.sub_diag. auto.
  - destruct (IH (S k0) H) as (Hle & Hn & Hi). split; [lia|]. split; [|exact Hi].
    replace (k - k0) with (S (k - S k0)) by lia. exact Hn.
Qed.

(** A project other than the root, whose file parses, is loaded as stored
    and nothing is written. *)
Lemma load_non_root defaults canonical st pid t0 :
  resolve_project_id pid <> DEFAULT_PROJECT_ID -> st (resolve_project_id pid) = Valid t0 ->
  load_all_templates defaults canonical st pid = (t0, st).
Proof.
  intros Hne Hst. unfold load_all_templates. rewrite Hst.
  apply String.eqb_neq in Hne. now rewrite Hne.
Qed.

Lemma length_remove {A : Type} (l : list A) i x : nth_error l i = Some x ->
  List.length (firstn i l ++ skipn (S i) l) = List.length l - 1.
Proof.
  intros H. assert (i < List.length l) by (apply nth_error_Some; congruence).
  rewrite length_app, length_firstn, length_skipn. lia.
Qed.

Definition sample_store : store := fun q =>
  if String.eqb q "p1" then
    Valid [("chapter_1"%string, [tmpl "a" true "chapter_1"; tmpl "b" false "chapter_1"])]
  else Missing.

(** C8 (corrected): deleting from a list of one entry returns [false] and
    saves nothing beyond what loading itself saved; for the root project
    loading may seed and save built-in chapters, for any other project whose
    file parses the store is left as it was.  Deleting from a list of two
    or more returns [true] and saves the loaded set with that list replaced
    by the list without the entry, whose new first entry is flagged when
    the deleted one was. *)
Theorem delete_template_outcome defaults canonical st pid tid t st1 :
  load_all_templates defaults canonical st pid = (t, st1) ->
  (forall k ch l i, locate t tid = Some (k, ch, l, i) -> List.length l = 1 ->
     delete_template defaults canonical st pid tid = (false, st1))
  /\ (resolve_project_id pid <> DEFAULT_PROJECT_ID ->
      forall t0, st (resolve_project_id pid) = Valid t0 -> t = t0 /\ st1 = st)
  /\ (forall k ch l i x, locate t tid = Some (k, ch, l, i) -> nth_error l i = Some x ->
      2 <= List.length l ->
      exists l', nth_error t k = Some (ch, l)
        /\ delete_template defaults canonical st pid tid
           = (true, save st1 pid (update_nth k (fun e => (fst e, l')) t))
        /\ List.length l' = List.length l - 1
        /\ (x.(is_default) = false -> l' = firstn i l ++ skipn (S i) l)
        /\ (x.(is_default) = true -> exists y r,
              firstn i l ++ skipn (S i) l = y :: r /\ l' = set_default true y :: r)).
Proof.
  intros Hload. split; [|split].
  - intros k ch l i Hloc Hlen. unfold delete_template. rewrite Hload.
    unfold delete_in. rewrite Hloc, Hlen. reflexivity.
  - intros Hne t0 Hst. rewrite (load_non_root defaults canonical st pid t0 Hne Hst) in Hload.
    now injection Hload.
  - intros k ch l i x Hloc Hx Hlen.
    destruct (locate_from_nth 0 t tid k ch l i Hloc) as (_ & Hk & _).
    rewrite Nat.sub_0_r in Hk.
    pose proof (length_remove l i x Hx) as Hrl.
    set (rem := firstn i l ++ skipn (S i) l) in *.
    exists (if x.(is_default)
            then match rem with y :: r => set_default true y :: r | [] => rem end
            else rem).
    split; [exact Hk|]. split.
    + unfold delete_template. rewrite Hload. unfold delete_in. rewrite Hloc.
      replace (Nat.eqb (List.length l) 1) with false by (symmetry; apply Nat.eqb_neq; lia).
      rewrite Hx. reflexivity.
    + destruct (is_default x) eqn:Ed.
      * destruct rem as [|y r] eqn:Er; simpl in Hrl |- *; [lia|].
        split; [exact Hrl|]. split; [discriminate|]. intros _. eauto.
      * split; [exact Hrl|]. split; [reflexivity|discriminate].
Qed.

(** The one-entry case of C8 on the root project: deleting the only
    template of a custom chapter fails, yet the root file is rewritten with
    the built-in chapters seeded by loading. *)
Lemma delete_last_rewrites_root :
  let st : store := fun q =>
    if String.eqb q "default" then Valid [("custom"%string, [tmpl "x" false "custom"])]
    else Missing in
  let r := delete_template source_default_templates source_canonical_template st "default" "x" in
  fst r = false /\ snd r "default"%string <> st "default"%string.
Proof.
  vm_compute. split; [reflexivity|discriminate].
Qed.

Lemma delete_template_outcome_witness :
  load_all_templates [] (fun _ => None) sample_store "p1"
    = ([("chapter_1"%string, [tmpl "a" true "chapter_1"; tmpl "b" false "chapter_1"])],
       sample_store)
  /\ exists l',
    delete_template [] (fun _ => None) sample_store "p1" "a"
      = (true, save sample_store "p1" (update_nth 0 (fun e => (fst e, l'))
           [("chapter_1"%string, [tmpl "a" true "chapter_1"; tmpl "b" false "chapter_1"])]))
    /\ l' = [set_default true (tmpl "b" false "chapter_1")].
Proof.
  split; [reflexivity|].
  destruct (delete_template_outcome [] (fun _ => None) sample_store "p1" "a"
     [("chapter_1"%string, [tmpl "a" true "chapter_1"; tmpl "b" false "chapter_1"])]
     sample_store eq_refl) as (_ & _ & H).
  destruct (H 0 "chapter_1"%string [tmpl "a" true "chapter_1"; tmpl "b" false "chapter_1"]
              0 (tmpl "a" true "chapter_1") eq_refl eq_refl (le_n 2))
    as (l' & _ & Hd & _ & _ & Hp).
  exists l'. split; [exact Hd|].
  destruct (Hp eq_refl) as (y & r & Hyr & ->). simpl in Hyr.
  injection Hyr as <- <-. reflexivity.
Defined.

(** The number of templates flagged default in a list, and the invariant
    that every list of a set has at most one. *)
Definition count_default (l : list template) : nat :=
  List.length (filter (fun x => x.(is_default)) l).

Definition at_most_one_default (t : tset) : bool :=
  forallb (fun e => Nat.leb (count_default (snd e)) 1) t.

Lemma amod_get t ch l : at_most_one_default t = true -> get t ch = Some l ->
  count_default l <= 1.
Proof.
  induction t as [|[k v] t IH]; simpl; [discriminate|].
  intros H Hg. apply andb_true_iff in H as [H1 H2].
  destruct (String.eqb k ch).
  - injection Hg as <-. now apply Nat.leb_le.
  - now apply IH.
Qed.

Lemma amod_set t ch l : at_most_one_default t = true -> count_default l <= 1 ->
  at_most_one_default (set t ch l) = true.
Proof.
  intros H Hl. induction t as [|[k v] t IH]; simpl in *.
  - rewrite andb_true_r. now apply Nat.leb_le.
  - apply andb_true_iff in H as [H1 H2].
    destruct (String.eqb k ch); simpl.
    + apply Nat.leb_le in Hl. now rewrite Hl, H2.
    + rewrite H1. now apply IH.
Qed.

Lemma amod_update_nth t k l : at_most_one_default t = true -> count_default l <= 1 ->
  at_most_one_default (update_nth k (fun e => (fst e, l)) t) = true.
Proof.
  revert k. induction t as [|[c v] t IH]; intros k H Hl; destruct k; simpl in *; auto.
  - apply andb_true_iff in H as [_ H2]. apply Nat.leb_le in Hl. now rewrite Hl, H2.
  - apply andb_true_iff in H as [H1 H2]. rewrite H1. now apply IH.
Qed.

Lemma filter_clear l : filter (fun x => x.(is_default)) (map (set_default false) l) = [].
Proof. induction l; simpl; auto. Qed.

Lemma count_app l l' : count_default (l ++ l') = count_default l + count_default l'.
Proof. unfold count_default. now rewrite filter_app, length_app. Qed.

Lemma nth_error_update_nth {A : Type} (f : A -> A) l i :
  nth_error (update_nth i f l) i = option_map f (nth_error l i).
Proof.
  revert i. induction l as [|x l IH]; intros [|i]; simpl; auto.
Qed.

Lemma filter_all_false l : (forall z, In z l -> z.(is_default) = false) ->
  filter (fun x => x.(is_default)) l = [].
Proof.
  induction l as [|w l IH]; intros Hall; simpl; auto.
  rewrite (Hall w) by (simpl; auto). apply IH. intros v Hv. apply Hall. simpl; auto.
Qed.

Lemma filter_update_nth_cleared f l i y :
  (forall z, In z l -> z.(is_default) = false) -> nth_error l i = Some y ->
  (f y).(is_default) = true ->
  filter (fun x => x.(is_default)) (update_nth i f l) = [f y].
Proof.
  revert i. induction l as [|z l IH]; intros [|i] Hall Hy Hf; simpl in *; try discriminate.
  - injection Hy as ->. rewrite Hf. f_equal. apply filter_all_false. auto.
  - rewrite (Hall z); [|auto]. apply IH; auto.
Qed.

Lemma count_update_nth_lowers f l i :
  (forall y, (f y).(is_default) = true -> y.(is_default) = true) ->
  count_default (update_nth i f l) <= count_default l.
Proof.
  intros Hf. unfold count_default. revert i.
  induction l as [|z l IH]; intros [|i]; simpl; auto.
  - specialize (Hf z). destruct (is_default (f z)), (is_default z); simpl;
      try (pose proof (Hf eq_refl); discriminate); lia.
  - specialize (IH i). destruct (is_default z); simpl; lia.
Qed.

Lemma count_remove l i x : nth_error l i = Some x ->
  count_default (firstn i l ++ skipn (S i) l) + (if x.(is_default) then 1 else 0)
  = count_default l.
Proof.
  unfold count_default. revert i. induction l as [|z l IH]; intros [|i] H; simpl in *;
    try discriminate.
  - injection H as ->. destruct (is_default x); simpl; lia.
  - specialize (IH i H). destruct (is_default z); simpl; lia.
Qed.

Lemma create_in_amod t ch n : at_most_one_default t = true ->
  at_most_one_default (create_in t ch n) = true
  /\ (n.(is_default) = true -> forall l, get (create_in t ch n) ch = Some l ->
        filter (fun x => x.(is_default)) l = [n]).
Proof.
  intros H. unfold create_in.
  set (t1 := if is_default n then match get t ch with
                                  | Some l => set t ch (map (set_default false) l)
                                  | None => t end else t).
  assert (Ht1 : at_most_one_default t1 = true
                /\ (is_default n = true ->
                    filter (fun x => x.(is_default)) (get_or_nil t1 ch) = [])).
  { unfold t1. destruct (is_default n); [|split; [exact H|discriminate]].
    destruct (get t ch) as [l|] eqn:Eg.
    - split.
      + apply amod_set; [exact H|]. unfold count_default. rewrite filter_clear. simpl; lia.
      + intros _. unfold get_or_nil. rewrite get_set_same. apply filter_clear.
    - split; [exact H|]. intros _. unfold get_or_nil. now rewrite Eg. }
  destruct Ht1 as [A1 A2]. split.
  - apply amod_set; [exact A1|]. rewrite count_app.
    destruct (is_default n) eqn:En.
    + unfold count_default at 1. rewrite (A2 eq_refl). unfold count_default. simpl.
      rewrite En. simpl. lia.
    + unfold count_default at 2. simpl. rewrite En. simpl.
      unfold get_or_nil. destruct (get t1 ch) eqn:Eg; [|simpl; lia].
      pose proof (amod_get t1 ch l A1 Eg). lia.
  - intros En l Hl. rewrite get_set_same in Hl. injection Hl as <-.
    rewrite filter_app, (A2 En). simpl. now rewrite En.
Qed.

Lemma locate_in_set t tid k ch l i : locate t tid = Some (k, ch, l, i) ->
  nth_error t k = Some (ch, l).
Proof.
  intros H. destruct (locate_from_nth 0 t tid k ch l i H) as (_ & Hk & _).
  now rewrite Nat.sub_0_r in Hk.
Qed.

Lemma amod_nth t k ch l : at_most_one_default t = true -> nth_error t k = Some (ch, l) ->
  count_default l <= 1.
Proof.
  intros H Hk. unfold at_most_one_default in H. rewrite forallb_forall in H.
  apply nth_error_In in Hk. apply Nat.leb_le. exact (H _ Hk).
Qed.

Lemma update_in_amod t tid nm sp up d ts x t' : at_most_one_default t = true ->
  update_in t tid nm sp up d ts = Some (x, t') ->
  at_most_one_default t' = true
  /\ (d = Some true -> exists k ch l l2, nth_error t k = Some (ch, l)
        /\ nth_error t' k = Some (ch, l2) /\ filter (fun x => x.(is_default)) l2 = [x]).
Proof.
  intros H Hu. unfold update_in in Hu.
  destruct (locate t tid) as [[[[k ch] l] i]|] eqn:Hloc; [|discriminate].
  pose proof (locate_in_set t tid k ch l i Hloc) as Hk.
  pose proof (amod_nth t k ch l H Hk) as Hl.
  set (F := update_fields nm sp up d ts) in Hu.
  set (l1 := match d with Some true => map (set_default false) l | _ => l end) in Hu.
  destruct (nth_error (update_nth i F l1) i) as [x'|] eqn:Ex; [|discriminate].
  injection Hu as <- <-.
  rewrite nth_error_update_nth in Ex.
  destruct (nth_error l1 i) as [y|] eqn:Ey; simpl in Ex; [|discriminate].
  injection Ex as <-.
  assert (Hall : d = Some true -> forall z, In z l1 -> z.(is_default) = false).
  { intros -> z Hz. unfold l1 in Hz. apply in_map_iff in Hz as (w & <- & _). reflexivity. }
  split.
  - apply amod_update_nth; [exact H|].
    destruct d as [[|]|].
    + unfold count_default.
      rewrite (filter_update_nth_cleared F l1 i y (Hall eq_refl) Ey eq_refl). simpl; lia.
    + eapply Nat.le_trans; [apply count_update_nth_lowers|exact Hl].
      intros z. unfold F. simpl. discriminate.
    + eapply Nat.le_trans; [apply count_update_nth_lowers|exact Hl].
      intros z. unfold F. simpl. auto.
  - intros ->. exists k, ch, l, (update_nth i F l1). split; [exact Hk|]. split.
    + rewrite nth_error_update_nth, Hk. reflexivity.
    + exact (filter_update_nth_cleared F l1 i y (Hall eq_refl) Ey eq_refl).
Qed.

Lemma delete_in_amod t tid t' : at_most_one_default t = true ->
  delete_in t tid = Some t' -> at_most_one_default t' = true.
Proof.
  intros H Hd. unfold delete_in in Hd.
  destruct (locate t tid) as [[[[k ch] l] i]|] eqn:Hloc; [|discriminate].
  pose proof (locate_in_set t tid k ch l i Hloc) as Hk.
  pose proof (amod_nth t k ch l H Hk) as Hl.
  destruct (Nat.eqb (List.length l) 1); [discriminate|].
  assert (Hr : forall x, nth_error l i = Some x ->
          count_default (firstn i l ++ skipn (S i) l) + (if x.(is_default) then 1 else 0)
          = count_default l) by (intros x; apply count_remove).
  assert (Hn : nth_error l i = None -> firstn i l ++ skipn (S i) l = l).
  { intros Hx. assert (List.length l <= i) by (apply nth_error_None; exact Hx).
    rewrite firstn_all2, skipn_all2 by lia. apply app_nil_r. }
  set (rem := firstn i l ++ skipn (S i) l) in *.
  injection Hd as <-. apply amod_update_nth; [exact H|].
  destruct (nth_error l i) as [x|] eqn:Hx.
  - pose proof (Hr x eq_refl) as Hc.
    destruct (is_default x).
    + destruct rem as [|y r]; [simpl; lia|].
      unfold count_default in Hc, Hl |- *. simpl in Hc |- *.
      destruct (is_default y); simpl in Hc; lia.
    + lia.
  - rewrite (Hn eq_refl). exact Hl.
Qed.

(** C9 (code bug; what the mutations themselves keep): whenever the set a
    project loads (for a project other than the root, the set stored in
    its file) has at most one default per list, creating, updating and deleting each save a set with the same
    property; creating or updating with the flag set leaves exactly the
    created or updated template flagged in its chapter's list. *)
Theorem mutations_keep_single_default defaults canonical st pid :
  at_most_one_default (fst (load_all_templates defaults canonical st pid)) = true ->
  (forall ch nm sp up b tid ts,
     exists t', snd (create_template defaults canonical st pid ch nm sp up b tid ts)
                  (resolve_project_id pid) = Valid t'
       /\ at_most_one_default t' = true
       /\ (b = true -> forall l, get t' ch = Some l ->
             filter (fun x => x.(is_default)) l
             = [fst (create_template defaults canonical st pid ch nm sp up b tid ts)]))
  /\ (forall tid nm sp up d ts x,
       fst (update_template defaults canonical st pid tid nm sp up d ts) = Some x ->
       exists t', snd (update_template defaults canonical st pid tid nm sp up d ts)
                    (resolve_project_id pid) = Valid t'
         /\ at_most_one_default t' = true
         /\ (d = Some true -> exists k ch l2, nth_error t' k = Some (ch, l2)
               /\ filter (fun x => x.(is_default)) l2 = [x]))
  /\ (forall tid, fst (delete_template defaults canonical st pid tid) = true ->
       exists t', snd (delete_template defaults canonical st pid tid)
                    (resolve_project_id pid) = Valid t'
         /\ at_most_one_default t' = true).
Proof.
  destruct (load_all_templates defaults canonical st pid) as [t st1] eqn:Hload.
  simpl. intros H.
  assert (Hsave : forall t', save st1 pid t' (resolve_project_id pid) = Valid t').
  { intros t'. unfold save. now rewrite String.eqb_refl. }
  split; [|split].
  - intros ch nm sp up b tid ts. unfold create_template. rewrite Hload. simpl.
    eexists. split; [apply Hsave|]. apply create_in_amod. exact H.
  - intros tid nm sp up d ts x. unfold update_template. rewrite Hload.
    destruct (update_in t tid nm sp up d ts) as [[x' t']|] eqn:Hu; simpl; [|discriminate].
    intros Hx. injection Hx as <-.
    destruct (update_in_amod t tid nm sp up d ts x' t' H Hu) as [A B].
    exists t'. split; [apply Hsave|]. split; [exact A|].
    intros Hd. destruct (B Hd) as (k & ch & l & l2 & _ & Hk & Hf). eauto.
  - intros tid. unfold delete_template. rewrite Hload.
    destruct (delete_in t tid) as [t'|] eqn:Hd; simpl; [|discriminate].
    intros _. exists t'. split; [apply Hsave|]. exact (delete_in_amod t tid t' H Hd).
Qed.

(** C9 on the root project: the stored list of [chapter_1] has one
    template flagged default but not the built-in id; loading inserts the
    flagged built-in template in front of it, and creating a template that
    is not a default saves a list with two defaults. *)
Lemma create_after_seed_two_defaults :
  let st : store := fun q =>
    if String.eqb q "default" then Valid [("chapter_1"%string, [tmpl "x" true "chapter_1"])]
    else Missing in
  at_most_one_default [("chapter_1"%string, [tmpl "x" true "chapter_1"])] = true
  /\ match snd (create_template source_default_templates source_canonical_template st
                   "default" "chapter_1" "n" "" "" false "new" "now") "default"%string with
     | Valid t' => at_most_one_default t'
     | _ => true
     end = false.
Proof.
  vm_compute. split; reflexivity.
Qed.

(** C9 (code bug): a reachable sequence on the root project, starting
    from no template file.  Creating a template that is not a default and
    deleting the built-in template of [chapter_1] (which promotes the
    created one to default) saves a list with one default; the next load
    inserts the flagged built-in template in front of it again without
    clearing the promoted flag, and saves a list with two defaults. *)
Lemma reload_after_delete_two_defaults :
  let st0 : store := fun _ => Missing in
  let st1 := snd (create_template source_default_templates source_canonical_template st0
                    "default" "chapter_1" "mine" "" "" false "mine" "now") in
  let r2 := delete_template source_default_templates source_canonical_template st1
              "default" "default_chapter_1" in
  let r3 := load_all_templates source_default_templates source_canonical_template
              (snd r2) "default" in
  fst r2 = true
  /\ match snd r2 "default"%string with
     | Valid t2 => at_most_one_default t2
     | _ => false
     end = true
  /\ at_most_one_default (fst r3) = false
  /\ snd r3 "default"%string = Valid (fst r3).
Proof.
  vm_compute. repeat split.
Qed.

Lemma mutations_keep_single_default_witness :
  at_most_one_default (fst (load_all_templates [] (fun _ => None) sample_store "p1")) = true
  /\ exists t', snd (create_template [] (fun _ => None) sample_store "p1" "chapter_1"
                      "n" "" "" true "new" "now") "p1"%string = Valid t'
       /\ at_most_one_default t' = true.
Proof.
  assert (H : at_most_one_default (fst (load_all_templates [] (fun _ => None) sample_store "p1"))
              = true) by reflexivity.
  split; [exact H|].
  destruct (mutations_keep_single_default [] (fun _ => None) sample_store "p1" H) as [Hc _].
  destruct (Hc "chapter_1"%string "n"%string ""%string ""%string true "new"%string "now"%string)
    as (t' & Ht' & Ha & _).
  exists t'. split; [exact Ht'|exact Ha].
Defined.

End PromptManagerClaims.

(* ------------------------------------------------------------------ *)
(** ** Headings and titles: further properties of [chapter_parser.py] *)

Module ParserFacts.
Import PyStr PyStrFacts TitleNormalizer TitleNormalizerFacts HeadingMatcher ChapterParser.
Import ChapterParserClaims.

Lemma clean_repeated_title_nil : clean_repeated_title [] = [].
Proof. reflexivity. Qed.

(** No strategy of [_clean_repeated_title] returns an empty title. *)
Lemma clean_nonempty t : t <> [] -> clean_repeated_title t <> [].
Proof.
  intros Ht. rewrite TitleNormalizerClaims.clean_repeated_title_cons by exact Ht.
  destruct (exact_repetition t) as [s|] eqn:E1.
  - apply first_some_in in E1 as (d & Hd & Hb). unfold range in Hd. apply in_seq in Hd.
    apply TitleNormalizerClaims.exact_repetition_body_some in Hb as (-> & _ & _).
    destruct t; [congruence|]. destruct d; [lia|]. simpl. discriminate.
  - destruct (numbered_prefix t) as [s|] eqn:E2.
    + apply first_some_in in E2 as (n & _ & Hs). unfold numbered_prefix_step in Hs.
      cbv zeta in Hs.
      repeat match type of Hs with context [if ?b then _ else _] => destruct b end;
        try discriminate; injection Hs as <-; discriminate.
    + destruct (cut_point_scan t) as [s|] eqn:E3; [|exact Ht].
      apply first_some_in in E3 as (c & _ & Hb). unfold cut_point_body in Hb.
      cbv zeta in Hb. destruct (negb _ && negb _); [discriminate|].
      destruct (5 * _ <? 3 * _) eqn:Elt; [|discriminate].
      injection Hb as <-. apply Nat.ltb_lt in Elt. intros E. rewrite E in Elt.
      simpl in Elt. lia.
Qed.

(** The normalized title starts with the code point the title starts with. *)
Lemma clean_head c r : exists r', clean_repeated_title (c :: r) = c :: r'.
Proof.
  destruct (clean_repeated_title_prefix (c :: r)) as [w Hw].
  destruct (clean_repeated_title (c :: r)) as [|c' r'] eqn:E.
  - exfalso. exact (clean_nonempty (c :: r) ltac:(discriminate) E).
  - exists r'. simpl in Hw. injection Hw as -> _. reflexivity.
Qed.

Lemma span_snd_head (p : N -> bool) s c r : snd (span p s) = c :: r -> p c = false.
Proof.
  induction s as [|d s IH]; simpl; [discriminate|].
  destruct (p d) eqn:Ed.
  - destruct (span p s) as [a b]. exact IH.
  - intros H. injection H as -> _. exact Ed.
Qed.

Lemma strip_nonempty s w : In w s -> isspace w = false -> strip s <> [].
Proof.
  intros Hw Hs E. apply strip_nil_iff in E. rewrite forallb_forall in E.
  rewrite (E w Hw) in Hs. discriminate.
Qed.

Lemma mem_not_space w l : mem w l = true -> forallb (fun c => negb (isspace c)) l = true ->
  isspace w = false.
Proof.
  intros Hm Hl. unfold mem in Hm. apply existsb_exists in Hm as (x & Hx & Hwx).
  apply N.eqb_eq in Hwx. subst x. rewrite forallb_forall in Hl.
  apply negb_true_iff. exact (Hl w Hx).
Qed.

Lemma match_numbered_shape lead nums marks line g1 g2 :
  forallb (fun c => negb (isspace c)) marks = true ->
  match_numbered lead nums marks line = Some (g1, g2) ->
  exists x w, g1 = x ++ [w] /\ isspace w = false.
Proof.
  intros Hm. unfold match_numbered.
  destruct (startswith line lead); [|discriminate].
  destruct (span _ _) as [run r].
  destruct run as [|c run]; [discriminate|]. destruct r as [|w r']; [discriminate|].
  destruct (mem w marks) eqn:Ew; [|discriminate].
  intros H. injection H as <- _. exists (lead ++ c :: run), w. split.
  - now rewrite <- app_assoc.
  - exact (mem_not_space w marks Ew Hm).
Qed.

Lemma numbered_title_head p line h :
  (forall g1 g2, p line = Some (g1, g2) -> exists x w, g1 = x ++ [w] /\ isspace w = false) ->
  match_one clean_repeated_title line (Numbered, p) = Some h ->
  exists c r, h = c :: r /\ isspace c = false.
Proof.
  intros Hp. simpl. destruct (p line) as [[g1 g2]|] eqn:Ep; [|discriminate].
  destruct (Hp g1 g2 eq_refl) as (x & w & -> & Hw).
  assert (Hne : ustr_eqb (x ++ [w]) [] = false) by (destruct x; reflexivity).
  cbn [filter]. rewrite Hne. simpl negb. cbv iota.
  assert (Hgen : forall y, strip (x ++ [w] ++ y) <> []).
  { intros y. apply (strip_nonempty _ w); [|exact Hw].
    apply in_or_app. right. now left. }
  assert (Hfin : forall y, exists c r,
             clean_repeated_title (strip (x ++ [w] ++ y)) = c :: r /\ isspace c = false).
  { intros y. destruct (strip (x ++ [w] ++ y)) as [|c r] eqn:Es; [exact (False_ind _ (Hgen y Es))|].
    destruct (clean_head c r) as [r' Hr']. exists c, r'. split; [exact Hr'|].
    unfold strip in Es. exact (lstrip_head _ _ _ Es). }
  destruct (negb (ustr_eqb g2 [])); intros H; injection H as <-.
  - rewrite <- app_assoc. apply Hfin.
  - destruct (Hfin []) as (c & r & Hc). rewrite app_nil_r in Hc. eauto.
Qed.

(** Every title [_match_heading] returns is non-empty and does not start
    with whitespace. *)
Lemma match_heading_head line h : match_heading line = Some h ->
  exists c r, h = c :: r /\ isspace c = false.
Proof.
  unfold match_heading, match_heading_with. intros H.
  apply first_some_in in H as (pk & Hin & Hm).
  simpl in Hin. destruct Hin as [<-|[<-|[<-|[<-|[]]]]].
  - eapply numbered_title_head; [|exact Hm].
    intros g1 g2. apply match_numbered_shape. reflexivity.
  - eapply numbered_title_head; [|exact Hm].
    intros g1 g2. apply match_numbered_shape. reflexivity.
  - eapply numbered_title_head; [|exact Hm].
    intros g1 g2. apply match_numbered_shape. reflexivity.
  - simpl in Hm. destruct (pattern_markdown line) as [[g1 g2]|] eqn:Ep; [|discriminate].
    unfold pattern_markdown in Ep.
    destruct (span (N.eqb hash) line) as [hashes r].
    destruct ((1 <=? List.length hashes) && (List.length hashes <=? 3)) eqn:Eh; [|discriminate].
    destruct r as [|w r']; [discriminate|].
    destruct (isspace w); [|discriminate]. injection Ep as <- <-.
    assert (Hne : ustr_eqb hashes [] = false).
    { destruct hashes; [discriminate|reflexivity]. }
    cbn [filter] in Hm. rewrite Hne in Hm. simpl negb in Hm. cbv iota in Hm.
    destruct (ustr_eqb (snd (span isspace r')) []) eqn:Eg; simpl in Hm; [discriminate|].
    injection Hm as <-.
    destruct (snd (span isspace r')) as [|c r] eqn:Es; [discriminate|].
    destruct (clean_head c r) as [r2 Hr2]. exists c, r2. split; [exact Hr2|].
    exact (span_snd_head _ _ _ _ Es).
Qed.

Lemma collect_with_heading heading lines : forall idx seen i t,
  In (i, t) (collect_with heading lines idx seen) -> exists l, heading l = Some t.
Proof.
  induction lines as [|raw lines IH]; intros idx seen i t H; cbn [collect_with] in H;
    [destruct H|].
  destruct (ustr_eqb (strip raw) []); [eapply IH; exact H|].
  destruct (heading (strip raw)) as [h|] eqn:Eh; [|eapply IH; exact H].
  destruct (negb (ustr_eqb h [])); [|eapply IH; exact H].
  destruct (existsb (ustr_eqb h) seen); [eapply IH; exact H|].
  destruct H as [H|H]; [injection H as <- <-; eauto|eapply IH; exact H].
Qed.

Lemma chapters_of_titles lines n cands ch : In ch (chapters_of lines n cands) ->
  exists i t, In (i, t) cands /\ title ch = strip t.
Proof.
  induction cands as [|[i t] cands IH]; simpl; [tauto|].
  intros [<-|H].
  - exists i, t. simpl. auto.
  - destruct (IH H) as (j & s & Hin & Ht). exists j, s. auto.
Qed.

End ParserFacts.

Module ParserExtras.
Import PyStr PyStrFacts TitleNormalizer HeadingMatcher ChapterParser ParserFacts.

(** Every chapter [ChapterParser.parse] returns has a non-empty title. *)
Theorem parse_titles_nonempty text ch : In ch (parse text) -> title ch <> [].
Proof.
  unfold parse. destruct text as [|x r]; [intros []|].
  destruct (collect_with match_heading (splitlines (x :: r)) 0 []) as [|p ps] eqn:Ec.
  - destruct (ustr_eqb (strip (x :: r)) []); [intros []|].
    intros [<-|[]]. discriminate.
  - intros Hin. rewrite <- Ec in Hin.
    destruct (chapters_of_titles _ _ _ _ Hin) as (i & t & Hit & ->).
    destruct (collect_with_heading _ _ _ _ _ _ Hit) as (l & Hl).
    destruct (match_heading_head l t Hl) as (c & r' & -> & Hc).
    exact (strip_nonempty (c :: r') c (or_introl eq_refl) Hc).
Qed.

(** A line starting with four [#] is not a heading: [#{1,3}] must be
    followed by whitespace, and no other pattern starts with [#]. *)
Theorem four_hashes_not_heading r : match_heading (u "####" ++ r) = None.
Proof.
  unfold match_heading, match_heading_with. cbn [first_some heading_patterns].
  assert (H1 : match_one clean_repeated_title (u "####" ++ r) (Numbered, pattern_chapter) = None)
    by reflexivity.
  assert (H2 : match_one clean_repeated_title (u "####" ++ r) (Numbered, pattern_chinese) = None)
    by reflexivity.
  assert (H3 : match_one clean_repeated_title (u "####" ++ r) (Numbered, pattern_arabic) = None)
    by reflexivity.
  assert (H4 : match_one clean_repeated_title (u "####" ++ r) (Markdown, pattern_markdown) = None).
  { simpl. unfold pattern_markdown. simpl.
    destruct (span (N.eqb hash) r) as [a b]. simpl.
    reflexivity. }
  rewrite H1, H2, H3, H4. reflexivity.
Qed.

Lemma mem_digits_range d : mem d digits = true -> (48 <= d <= 57)%N.
Proof.
  unfold mem, digits. intros H. apply existsb_exists in H as (x & Hx & Hd).
  apply N.eqb_eq in Hd. subst x. apply in_map_iff in Hx as (k & <- & Hk).
  apply in_seq in Hk. lia.
Qed.

Lemma mem_chinese_range d : mem d chinese_nums = true -> (19968 <= d)%N.
Proof.
  unfold mem. intros H. apply existsb_exists in H as (x & Hx & Hd).
  apply N.eqb_eq in Hd. subst x. simpl in Hx. intuition (subst; lia).
Qed.

Lemma span_app_stop (p : N -> bool) a m r :
  forallb p a = true -> p m = false -> span p (a ++ m :: r) = (a, m :: r).
Proof.
  intros Ha Hm. induction a as [|c a IH]; simpl.
  - now rewrite Hm.
  - simpl in Ha. apply andb_true_iff in Ha as [Hc Ha]. rewrite Hc, (IH Ha). reflexivity.
Qed.

(** Every line that starts with a run of ASCII digits followed by [.] or
    [、] is a heading, whatever follows (["3.14 million"] included). *)
Theorem digit_run_is_heading d ds m r :
  forallb (fun c => mem c digits) (d :: ds) = true -> mem m enum_marks = true ->
  match_heading (d :: ds ++ m :: r) <> None.
Proof.
  intros Hds Hm.
  assert (Hd : (48 <= d <= 57)%N).
  { apply mem_digits_range. exact (proj1 (andb_prop _ _ Hds)). }
  assert (Hmr : m = 46%N \/ m = 12289%N).
  { unfold mem, enum_marks in Hm. simpl in Hm.
    destruct (N.eqb_spec m 46); [auto|]. destruct (N.eqb_spec m 12289); [auto|discriminate]. }
  unfold match_heading, match_heading_with. cbn [first_some heading_patterns].
  assert (H1 : match_one clean_repeated_title (d :: ds ++ m :: r) (Numbered, pattern_chapter)
               = None).
  { assert (Hs : startswith (d :: ds ++ m :: r) [di] = false).
    { cbn [startswith]. replace (di =? d)%N with false by (symmetry; apply N.eqb_neq; unfold di; lia).
      reflexivity. }
    unfold match_one, pattern_chapter, match_numbered. rewrite Hs. reflexivity. }
  assert (H2 : match_one clean_repeated_title (d :: ds ++ m :: r) (Numbered, pattern_chinese)
               = None).
  { assert (Hsp : span (fun c => mem c chinese_nums) (d :: ds ++ m :: r)
                  = ([], d :: ds ++ m :: r)).
    { cbn [span]. destruct (mem d chinese_nums) eqn:E; [apply mem_chinese_range in E; lia|].
      reflexivity. }
    unfold match_one, pattern_chinese, match_numbered. cbn [startswith skipn List.length].
    rewrite Hsp. reflexivity. }
  rewrite H1, H2.
  assert (Hsp : span (fun c => mem c digits) ((d :: ds) ++ m :: r) = (d :: ds, m :: r)).
  { apply span_app_stop; [exact Hds|].
    destruct (mem m digits) eqn:E; [|reflexivity].
    apply mem_digits_range in E. lia. }
  unfold match_one at 1, pattern_arabic, match_numbered. cbn [startswith skipn List.length].
  change (d :: ds ++ m :: r) with ((d :: ds) ++ m :: r). rewrite Hsp. cbv iota.
  rewrite Hm. cbn [filter]. simpl app.
  assert (Hne : ustr_eqb (d :: ds ++ [m]) [] = false) by reflexivity.
  rewrite Hne. simpl negb. cbv iota.
  destruct (negb (ustr_eqb (snd (span ws_or_ideographic r)) [])); discriminate.
Qed.

Lemma digit_run_is_heading_witness :
  forallb (fun c => mem c digits) (u "3") = true /\ mem 46%N enum_marks = true
  /\ match_heading (u "3" ++ 46%N :: u "14 million") <> None.
Proof.
  split; [reflexivity|]. split; [reflexivity|].
  exact (digit_run_is_heading 51%N [] 46%N (u "14 million") eq_refl eq_refl).
Defined.

End ParserExtras.

(* ------------------------------------------------------------------ *)
(** ** Further template-store functions of [prompt_manager.py] *)

Module TemplateLookup.
Import PromptManager.

(** [for template in chapter_templates: if template['id'] == template_id: return template] *)
Fixpoint find_in_list (l : list template) (template_id : string) : option template :=
  match l with
  | [] => None
  | x :: l' => if String.eqb x.(id) template_id then Some x else find_in_list l' template_id
  end.

(** The double loop of [get_template_by_id], over [templates.values()]. *)
Fixpoint find_template (t : tset) (template_id : string) : option template :=
  match t with
  | [] => None
  | (_, l) :: t' =>
      match find_in_list l template_id with
      | Some x => Some x
      | None => find_template t' template_id
      end
  end.

(** [get_template_by_id(project_id, template_id)], with the store after the
    load it performs. *)
Definition get_template_by_id (default_templates : tset)
  (canonical_template : string -> option template) (st : store)
  (project_id template_id : string) : option template * store :=
  let (t, st1) := load_all_templates default_templates canonical_template st project_id in
  (find_template t template_id, st1).

(** [get_templates_by_chapter(project_id, chapter)] *)
Definition get_templates_by_chapter (default_templates : tset)
  (canonical_template : string -> option template) (st : store)
  (project_id chapter_ : string) : list template * store :=
  let (t, st1) := load_all_templates default_templates canonical_template st project_id in
  (get_or_nil t chapter_, st1).

(** The number of templates of a set, over all chapters. *)
Definition template_count (t : tset) : nat :=
  fold_right (fun e n => List.length (snd e) + n) 0 t.

(** The chapter keys of a set with the ids of each list, in order. *)
Definition shape (t : tset) : list (string * list string) :=
  map (fun e => (fst e, map id (snd e))) t.

(** No chapter of the set has an empty list. *)
Definition no_empty_list (t : tset) : bool :=
  forallb (fun e => match snd e with [] => false | _ => true end) t.

(** The built-in chapter [k] holds a non-empty list that either holds the
    built-in id or has no canonical template to insert. *)
Definition seeded (canonical_template : string -> option template) (t : tset) (k : string)
  : bool :=
  match get t k with
  | None | Some [] => false
  | Some l =>
      existsb (fun x => String.eqb x.(id) (default_id k)) l
      || match canonical_template k with Some _ => false | None => true end
  end.

Definition nonempty_at (t : tset) (k : string) : bool :=
  match get t k with Some (_ :: _) => true | _ => false end.

End TemplateLookup.

Module TemplateFacts.
Import PromptManager TemplateLookup PromptManagerClaims.

Lemma find_in_list_index l tid :
  find_in_list l tid = match index_of tid l with Some i => nth_error l i | None => None end.
Proof.
  induction l as [|x l IH]; simpl; [reflexivity|].
  destruct (String.eqb x.(id) tid); [reflexivity|].
  rewrite IH. destruct (index_of tid l); reflexivity.
Qed.

Lemma find_template_locate t tid : forall k0,
  find_template t tid
  = match locate_from k0 t tid with Some (_, _, l, i) => nth_error l i | None => None end.
Proof.
  induction t as [|[ch l] t IH]; intros k0; simpl; [reflexivity|].
  rewrite find_in_list_index. destruct (index_of tid l) as [i|] eqn:Ei.
  - destruct (nth_error l i) as [x|] eqn:Ex; [reflexivity|].
    apply index_of_nth in Ei as (y & Hy & _). congruence.
  - apply IH.
Qed.

Lemma index_of_ids l l' tid : map id l = map id l' -> index_of tid l = index_of tid l'.
Proof.
  revert l'. induction l as [|x l IH]; intros [|y l'] H; simpl in *; try discriminate;
    [reflexivity|].
  injection H as Hxy Hl. rewrite Hxy. now rewrite (IH l' Hl).
Qed.

Lemma locate_shape t t' tid : shape t = shape t' -> forall k0,
  match locate_from k0 t tid, locate_from k0 t' tid with
  | None, None => True
  | Some (k, ch, _, i), Some (k', ch', _, i') => k = k' /\ ch = ch' /\ i = i'
  | _, _ => False
  end.
Proof.
  revert t'. induction t as [|[ch l] t IH]; intros [|[ch' l'] t'] H k0; simpl in *;
    try discriminate; [exact I|].
  injection H as <- Hl Ht.
  rewrite (index_of_ids l l' tid Hl). destruct (index_of tid l') as [i|].
  - auto.
  - exact (IH t' Ht (S k0)).
Qed.

Lemma ids_update_nth (F : template -> template) l i :
  (forall y, (F y).(id) = y.(id)) -> map id (update_nth i F l) = map id l.
Proof.
  intros HF. revert i. induction l as [|x l IH]; intros [|i]; simpl; auto.
  - now rewrite HF.
  - now rewrite IH.
Qed.

Lemma ids_clear l : map id (map (set_default false) l) = map id l.
Proof. induction l as [|x l IH]; simpl; [reflexivity|]. now rewrite IH. Qed.

Lemma shape_update_nth t k ch l l' :
  nth_error t k = Some (ch, l) -> map id l' = map id l ->
  shape (update_nth k (fun e => (fst e, l')) t) = shape t.
Proof.
  revert k. induction t as [|[c m] t IH]; intros [|k] Hk Hl; simpl in *; try discriminate.
  - injection Hk as <- <-. now rewrite Hl.
  - now rewrite (IH k Hk Hl).
Qed.

Lemma update_in_facts t tid nm sp up d ts x t' :
  update_in t tid nm sp up d ts = Some (x, t') ->
  shape t' = shape t
  /\ exists k ch l2 i, locate t' tid = Some (k, ch, l2, i) /\ nth_error l2 i = Some x.
Proof.
  unfold update_in.
  destruct (locate t tid) as [[[[k ch] l] i]|] eqn:Hloc; [|discriminate].
  set (F := update_fields nm sp up d ts).
  set (l1 := match d with Some true => map (set_default false) l | _ => l end).
  destruct (nth_error (update_nth i F l1) i) as [x'|] eqn:Ex; [|discriminate].
  intros H. injection H as <- <-.
  pose proof (locate_in_set t tid k ch l i Hloc) as Hk.
  assert (Hids : map id (update_nth i F l1) = map id l).
  { rewrite ids_update_nth by reflexivity. unfold l1.
    destruct d as [[|]|]; [apply ids_clear|reflexivity|reflexivity]. }
  pose proof (shape_update_nth t k ch l _ Hk Hids) as Hsh.
  split; [exact Hsh|].
  pose proof (locate_shape t _ tid (eq_sym Hsh) 0) as Hl.
  unfold locate in Hloc. rewrite Hloc in Hl.
  destruct (locate_from 0 (update_nth k (fun e => (fst e, update_nth i F l1)) t) tid)
    as [[[[k' ch'] l'] i']|] eqn:Hloc'; [|contradiction].
  destruct Hl as (<- & <- & <-).
  exists k, ch, l', i. split; [exact Hloc'|].
  pose proof (locate_in_set _ tid k ch l' i Hloc') as Hk'.
  rewrite nth_error_update_nth, Hk in Hk'. simpl in Hk'. injection Hk' as <-.
  exact Ex.
Qed.

Lemma find_set t ch l tid : find_template t tid = None ->
  find_template (set t ch l) tid = find_in_list l tid.
Proof.
  induction t as [|[k v] t IH]; simpl; intros H.
  - destruct (find_in_list l tid); reflexivity.
  - destruct (find_in_list v tid) eqn:Ev; [discriminate|].
    destruct (String.eqb k ch); simpl.
    + destruct (find_in_list l tid); [reflexivity|exact H].
    + rewrite Ev. exact (IH H).
Qed.

Lemma find_get_none t ch l tid : find_template t tid = None -> get t ch = Some l ->
  find_in_list l tid = None.
Proof.
  induction t as [|[k v] t IH]; simpl; [discriminate|].
  destruct (find_in_list v tid) eqn:Ev; [discriminate|].
  intros H. destruct (String.eqb k ch); [intros E; injection E as <-; exact Ev|exact (IH H)].
Qed.

Lemma find_in_list_clear l tid :
  find_in_list (map (set_default false) l) tid = option_map (set_default false) (find_in_list l tid).
Proof.
  induction l as [|x l IH]; simpl; [reflexivity|].
  destruct (String.eqb (id x) tid); [reflexivity|exact IH].
Qed.

Lemma find_in_list_snoc l n tid : find_in_list l tid = None ->
  find_in_list (l ++ [n]) tid = if String.eqb n.(id) tid then Some n else None.
Proof.
  induction l as [|x l IH]; simpl; [destruct (String.eqb (id n) tid); reflexivity|].
  destruct (String.eqb (id x) tid); [discriminate|exact IH].
Qed.

Lemma get_or_nil_set t ch l : get_or_nil (set t ch l) ch = l.
Proof. unfold get_or_nil. now rewrite get_set_same. Qed.

Lemma get_or_nil_create t ch n :
  get_or_nil (create_in t ch n) ch
  = (if is_default n then map (set_default false) (get_or_nil t ch) else get_or_nil t ch) ++ [n].
Proof.
  unfold create_in. rewrite get_or_nil_set. f_equal.
  destruct (is_default n); [|reflexivity].
  unfold get_or_nil at 2. destruct (get t ch) eqn:E.
  - apply get_or_nil_set.
  - unfold get_or_nil. now rewrite E.
Qed.

Lemma find_create t ch n tid : find_template t tid = None -> id n = tid ->
  find_template (create_in t ch n) tid = Some n.
Proof.
  intros H <-. unfold create_in.
  set (t1 := if is_default n then match get t ch with
                                  | Some l => set t ch (map (set_default false) l)
                                  | None => t end else t).
  assert (H1 : find_template t1 (id n) = None).
  { unfold t1. destruct (is_default n); [|exact H].
    destruct (get t ch) as [l|] eqn:E; [|exact H].
    rewrite find_set by exact H. rewrite find_in_list_clear.
    now rewrite (find_get_none t ch l (id n) H E). }
  rewrite find_set by exact H1.
  rewrite find_in_list_snoc, String.eqb_refl; [reflexivity|].
  unfold get_or_nil. destruct (get t1 ch) as [l|] eqn:E; [|reflexivity].
  exact (find_get_none t1 ch l _ H1 E).
Qed.

Lemma count_set t ch l :
  template_count (set t ch l) + List.length (get_or_nil t ch) = template_count t + List.length l.
Proof.
  unfold get_or_nil. induction t as [|[k v] t IH]; simpl; [lia|].
  destruct (String.eqb k ch); simpl; lia.
Qed.

Lemma count_create t ch n : template_count (create_in t ch n) = S (template_count t).
Proof.
  unfold create_in.
  set (t1 := if is_default n then match get t ch with
                                  | Some l => set t ch (map (set_default false) l)
                                  | None => t end else t).
  assert (H1 : template_count t1 = template_count t).
  { unfold t1. destruct (is_default n); [|reflexivity].
    destruct (get t ch) as [l|] eqn:E; [|reflexivity].
    pose proof (count_set t ch (map (set_default false) l)) as H.
    unfold get_or_nil in H. rewrite E, length_map in H. lia. }
  pose proof (count_set t1 ch (get_or_nil t1 ch ++ [n])) as H.
  rewrite length_app in H. simpl in H. lia.
Qed.

Lemma count_update_nth t k ch l l' : nth_error t k = Some (ch, l) ->
  template_count (update_nth k (fun e => (fst e, l')) t) + List.length l
  = template_count t + List.length l'.
Proof.
  revert k. induction t as [|[c m] t IH]; intros [|k] Hk; simpl in *; try discriminate.
  - injection Hk as <- <-. lia.
  - specialize (IH k Hk). lia.
Qed.

Lemma delete_in_facts t tid t' : delete_in t tid = Some t' ->
  exists k ch l l', nth_error t k = Some (ch, l)
    /\ t' = update_nth k (fun e => (fst e, l')) t
    /\ List.length l' = List.length l - 1 /\ 2 <= List.length l.
Proof.
  unfold delete_in.
  destruct (locate t tid) as [[[[k ch] l] i]|] eqn:Hloc; [|discriminate].
  destruct (locate_from_nth 0 t tid k ch l i Hloc) as (_ & Hk & Hi).
  rewrite Nat.sub_0_r in Hk.
  destruct (index_of_nth tid l i Hi) as (x & Hx & _).
  assert (Hlen : i < List.length l) by (apply nth_error_Some; congruence).
  destruct (Nat.eqb_spec (List.length l) 1) as [|Hne]; [discriminate|].
  pose proof (length_remove l i x Hx) as Hr.
  set (rem := firstn i l ++ skipn (S i) l) in *.
  rewrite Hx. intros H. injection H as <-.
  eexists k, ch, l, _. split; [exact Hk|]. split; [reflexivity|]. split; [|lia].
  destruct (is_default x); [|exact Hr].
  destruct rem; simpl in *; lia.
Qed.

Lemma nel_get t ch l : no_empty_list t = true -> get t ch = Some l -> l <> [].
Proof.
  induction t as [|[k v] t IH]; simpl; [discriminate|].
  intros H. apply andb_true_iff in H as [H1 H2].
  destruct (String.eqb k ch); [intros E; injection E as <-; destruct v; discriminate|].
  exact (IH H2).
Qed.

Lemma nel_nth t k ch l : no_empty_list t = true -> nth_error t k = Some (ch, l) -> l <> [].
Proof.
  intros H Hk. apply nth_error_In in Hk. unfold no_empty_list in H.
  rewrite forallb_forall in H. specialize (H _ Hk). simpl in H. destruct l; discriminate.
Qed.

Lemma nel_set t ch l : no_empty_list t = true -> l <> [] -> no_empty_list (set t ch l) = true.
Proof.
  intros H Hl. induction t as [|[k v] t IH]; simpl in *.
  - destruct l; [congruence|reflexivity].
  - apply andb_true_iff in H as [H1 H2]. destruct (String.eqb k ch); simpl.
    + destruct l; [congruence|]. exact H2.
    + rewrite H1. exact (IH H2).
Qed.

Lemma nel_update_nth t k l' : no_empty_list t = true -> l' <> [] ->
  no_empty_list (update_nth k (fun e => (fst e, l')) t) = true.
Proof.
  revert k. induction t as [|[c v] t IH]; intros [|k] H Hl; simpl in *; auto.
  - apply andb_true_iff in H as [_ H2]. destruct l'; [congruence|]. exact H2.
  - apply andb_true_iff in H as [H1 H2]. rewrite H1. exact (IH k H2 Hl).
Qed.

Lemma length_update_nth {A : Type} (f : A -> A) l i :
  List.length (update_nth i f l) = List.length l.
Proof. revert i; induction l as [|x l IH]; intros [|i]; simpl; auto. Qed.

Lemma nel_create t ch n : no_empty_list t = true -> no_empty_list (create_in t ch n) = true.
Proof.
  intros H. unfold create_in. apply nel_set; [|destruct (get_or_nil _ _); discriminate].
  destruct (is_default n); [|exact H].
  destruct (get t ch) as [l|] eqn:E; [|exact H].
  apply nel_set; [exact H|]. pose proof (nel_get t ch l H E). destruct l; [congruence|discriminate].
Qed.

Lemma nel_update_in t tid nm sp up d ts x t' : no_empty_list t = true ->
  update_in t tid nm sp up d ts = Some (x, t') -> no_empty_list t' = true.
Proof.
  intros H. unfold update_in.
  destruct (locate t tid) as [[[[k ch] l] i]|] eqn:Hloc; [|discriminate].
  pose proof (nel_nth t k ch l H (locate_in_set t tid k ch l i Hloc)) as Hl.
  destruct (nth_error _ i); [|discriminate].
  intros E. injection E as _ <-. apply nel_update_nth; [exact H|].
  intros E. apply (f_equal (@List.length template)) in E.
  rewrite length_update_nth in E. simpl in E.
  destruct d as [[|]|]; rewrite ?length_map in E; destruct l; simpl in E; congruence.
Qed.

Lemma nel_delete_in t tid t' : no_empty_list t = true -> delete_in t tid = Some t' ->
  no_empty_list t' = true.
Proof.
  intros H Hd. destruct (delete_in_facts t tid t' Hd) as (k & ch & l & l' & _ & -> & Hl & H2).
  apply nel_update_nth; [exact H|]. destruct l'; simpl in Hl; [lia|discriminate].
Qed.

(** Seeding the root set. *)
Lemma seed_step_get_other canonical t u k dl k' : k <> k' ->
  get (fst (seed_chapter canonical (t, u) (k, dl))) k' = get t k'.
Proof.
  intros Hne. unfold seed_chapter; cbv beta iota.
  destruct (get t k) as [[|y l]|]; simpl; try (now apply get_set_other).
  destruct (_ || _); [reflexivity|].
  destruct (canonical k); simpl; [now apply get_set_other|reflexivity].
Qed.

Lemma seed_step_cases canonical t u e :
  seed_chapter canonical (t, u) e = (t, u) \/ snd (seed_chapter canonical (t, u) e) = true.
Proof.
  destruct e as [k dl]. unfold seed_chapter; cbv beta iota.
  destruct (get t k) as [[|y l]|]; simpl; auto.
  destruct (_ || _); [auto|]. destruct (canonical k); simpl; auto.
Qed.

Lemma seed_fold_true canonical defaults t :
  snd (fold_left (seed_chapter canonical) defaults (t, true)) = true.
Proof.
  revert t. induction defaults as [|e defaults IH]; intros t; [reflexivity|].
  cbn [fold_left]. destruct (seed_step_cases canonical t true e) as [E|E].
  - rewrite E. apply IH.
  - destruct (seed_chapter canonical (t, true) e) as [t1 u1]. simpl in E. subst u1. apply IH.
Qed.

Lemma seed_fold_false canonical defaults t u t' :
  fold_left (seed_chapter canonical) defaults (t, u) = (t', false) -> t' = t /\ u = false.
Proof.
  revert t u. induction defaults as [|e defaults IH]; intros t u H; cbn [fold_left] in H.
  - injection H as <- <-. auto.
  - destruct (seed_step_cases canonical t u e) as [E|E].
    + rewrite E in H. exact (IH t u H).
    + destruct (seed_chapter canonical (t, u) e) as [t1 u1]. simpl in E. subst u1.
      pose proof (seed_fold_true canonical defaults t1) as Ht. rewrite H in Ht. discriminate.
Qed.

Section Seeding.
Variable canonical : string -> option template.
Hypothesis canonical_id : forall k d, canonical k = Some d -> id d = default_id k.

Lemma seeded_step_self t u k dl :
  existsb (fun x => String.eqb x.(id) (default_id k)) dl = true ->
  seeded canonical (fst (seed_chapter canonical (t, u) (k, dl))) k = true.
Proof.
  intros Hdl.
  assert (Hset : forall l, existsb (fun x => String.eqb x.(id) (default_id k)) l = true ->
                 seeded canonical (set t k l) k = true).
  { intros l Hl. unfold seeded. rewrite get_set_same.
    destruct l as [|y l]; [discriminate|]. rewrite Hl. reflexivity. }
  unfold seed_chapter; cbv beta iota. destruct (get t k) as [[|y l]|] eqn:E; try (now apply Hset).
  destruct (existsb (fun x => String.eqb x.(id) (default_id k)) (y :: l)) eqn:Ex.
  - simpl. unfold seeded. rewrite E, Ex. reflexivity.
  - destruct (canonical k) as [d|] eqn:Ec; simpl.
    + apply Hset. simpl. rewrite (canonical_id k d Ec), String.eqb_refl. reflexivity.
    + unfold seeded. rewrite E, Ex, Ec. reflexivity.
Qed.

Lemma seed_step_id_if_seeded t u k dl : seeded canonical t k = true ->
  seed_chapter canonical (t, u) (k, dl) = (t, u).
Proof.
  unfold seeded, seed_chapter; cbv beta iota. destruct (get t k) as [[|y l]|]; try discriminate.
  destruct (existsb _ (y :: l)); [reflexivity|].
  destruct (canonical k); [discriminate|reflexivity].
Qed.

Lemma seeded_step_keep t u e k' : seeded canonical t k' = true ->
  seeded canonical (fst (seed_chapter canonical (t, u) e)) k' = true.
Proof.
  destruct e as [k dl]. intros H. destruct (String.eqb_spec k k') as [<-|Hne].
  - rewrite seed_step_id_if_seeded by exact H. exact H.
  - unfold seeded. rewrite seed_step_get_other by exact Hne. exact H.
Qed.

Lemma seeded_fold_keep defaults : forall t u k',
  seeded canonical t k' = true ->
  seeded canonical (fst (fold_left (seed_chapter canonical) defaults (t, u))) k' = true.
Proof.
  induction defaults as [|e defaults IH]; intros t u k' H; [exact H|].
  cbn [fold_left]. destruct (seed_chapter canonical (t, u) e) as [t1 u1] eqn:E.
  apply IH. change t1 with (fst (t1, u1)). rewrite <- E. now apply seeded_step_keep.
Qed.

Lemma seeded_fold defaults :
  (forall k dl, In (k, dl) defaults -> existsb (fun x => String.eqb x.(id) (default_id k)) dl = true) ->
  forall t u k dl, In (k, dl) defaults ->
  seeded canonical (fst (fold_left (seed_chapter canonical) defaults (t, u))) k = true.
Proof.
  intros Hd. induction defaults as [|[k0 dl0] defaults IH]; intros t u k dl Hin; [destruct Hin|].
  cbn [fold_left]. destruct (seed_chapter canonical (t, u) (k0, dl0)) as [t1 u1] eqn:E.
  destruct Hin as [Heq|Hin].
  - injection Heq as <- <-. apply seeded_fold_keep.
    change t1 with (fst (t1, u1)). rewrite <- E. apply seeded_step_self.
    apply Hd. now left.
  - apply (IH (fun k dl H => Hd k dl (or_intror H)) t1 u1 k dl Hin).
Qed.

Lemma seed_fold_identity defaults t u :
  (forall k dl, In (k, dl) defaults -> seeded canonical t k = true) ->
  fold_left (seed_chapter canonical) defaults (t, u) = (t, u).
Proof.
  revert t u. induction defaults as [|[k dl] defaults IH]; intros t u H; [reflexivity|].
  cbn [fold_left]. rewrite seed_step_id_if_seeded by (apply (H k dl); now left).
  apply IH. intros k' dl' Hin. apply (H k' dl'). now right.
Qed.

End Seeding.

Lemma get_in_some (t : tset) k dl : In (k, dl) t -> exists dl', get t k = Some dl' /\ In (k, dl') t.
Proof.
  induction t as [|[k0 v] t IH]; simpl; [tauto|].
  destruct (String.eqb_spec k0 k) as [<-|Hne].
  - intros _. exists v. auto.
  - intros [E|H]; [injection E as -> _; congruence|].
    destruct (IH H) as (dl' & H1 & H2). exists dl'. auto.
Qed.

Lemma nonempty_step_self canonical t u k dl : dl <> [] ->
  nonempty_at (fst (seed_chapter canonical (t, u) (k, dl))) k = true.
Proof.
  intros Hdl.
  assert (Hset : forall l, l <> [] -> nonempty_at (set t k l) k = true).
  { intros l Hl. unfold nonempty_at. rewrite get_set_same. destruct l; [congruence|reflexivity]. }
  unfold seed_chapter; cbv beta iota. destruct (get t k) as [[|y l]|] eqn:E; simpl; try (now apply Hset).
  destruct (_ || _); [simpl; unfold nonempty_at; now rewrite E|].
  destruct (canonical k); simpl; [apply Hset; discriminate|unfold nonempty_at; now rewrite E].
Qed.

Lemma nonempty_step_keep canonical t u e k' : nonempty_at t k' = true ->
  nonempty_at (fst (seed_chapter canonical (t, u) e)) k' = true.
Proof.
  destruct e as [k dl]. intros H. destruct (String.eqb_spec k k') as [<-|Hne].
  - unfold nonempty_at in H. unfold seed_chapter; cbv beta iota.
    destruct (get t k) as [[|y l]|] eqn:E; try discriminate.
    destruct (existsb _ _); [simpl; unfold nonempty_at; now rewrite E|].
    destruct (canonical k); simpl; unfold nonempty_at; [now rewrite get_set_same|now rewrite E].
  - unfold nonempty_at. rewrite seed_step_get_other by exact Hne. exact H.
Qed.

Lemma nonempty_fold canonical defaults :
  (forall k dl, In (k, dl) defaults -> dl <> []) ->
  forall t u k, (nonempty_at t k = true \/ exists dl, In (k, dl) defaults) ->
  nonempty_at (fst (fold_left (seed_chapter canonical) defaults (t, u))) k = true.
Proof.
  intros Hd. induction defaults as [|[k0 dl0] defaults IH]; intros t u k Hk.
  - destruct Hk as [Hk|[dl []]]. exact Hk.
  - cbn [fold_left]. destruct (seed_chapter canonical (t, u) (k0, dl0)) as [t1 u1] eqn:E.
    apply (IH (fun k dl H => Hd k dl (or_intror H))).
    destruct Hk as [Hk|[dl [Heq|Hin]]].
    + left. change t1 with (fst (t1, u1)). rewrite <- E. now apply nonempty_step_keep.
    + injection Heq as <- <-. left. change t1 with (fst (t1, u1)). rewrite <- E.
      apply nonempty_step_self. apply (Hd k0 dl0). now left.
    + right. eauto.
Qed.

Lemma load_root_nonempty defaults canonical st k dl :
  (forall k dl, In (k, dl) defaults -> dl <> []) -> In (k, dl) defaults ->
  nonempty_at (fst (load_all_templates defaults canonical st DEFAULT_PROJECT_ID)) k = true.
Proof.
  intros Hd Hin. unfold load_all_templates.
  change (resolve_project_id DEFAULT_PROJECT_ID) with DEFAULT_PROJECT_ID.
  assert (Hinit : nonempty_at defaults k = true).
  { destruct (get_in_some defaults k dl Hin) as (dl' & Hg & Hin').
    unfold nonempty_at. rewrite Hg. pose proof (Hd k dl' Hin').
    destruct dl'; [congruence|reflexivity]. }
  destruct (st DEFAULT_PROJECT_ID) as [| |t]; simpl; try exact Hinit.
  pose proof (nonempty_fold canonical defaults Hd t false k (or_intror (ex_intro _ dl Hin))) as H.
  destruct (fold_left (seed_chapter canonical) defaults (t, false)) as [t' u]. exact H.
Qed.

End TemplateFacts.

(* ------------------------------------------------------------------ *)
(** ** Loading after a save *)

Module TemplateStore.
Import PromptManager TemplateLookup PromptManagerClaims TemplateFacts.

Lemma resolve_idem pid : resolve_project_id (resolve_project_id pid) = resolve_project_id pid.
Proof.
  unfold resolve_project_id. destruct (String.eqb pid "") eqn:E; [reflexivity|].
  now rewrite E.
Qed.

Lemma save_at st pid t : save st pid t (resolve_project_id pid) = Valid t.
Proof. unfold save. now rewrite String.eqb_refl. Qed.

Lemma save_resolve st pid t : save st (resolve_project_id pid) t = save st pid t.
Proof. unfold save. now rewrite resolve_idem. Qed.

Lemma existsb_ids s l :
  existsb (fun x => String.eqb x.(id) s) l = existsb (fun i => String.eqb i s) (map id l).
Proof. induction l as [|x l IH]; simpl; [reflexivity|]. now rewrite IH. Qed.

Lemma seeded_iff c t k : seeded c t k = true <->
  exists l, get t k = Some l /\ l <> []
    /\ (existsb (fun i => String.eqb i (default_id k)) (map id l) = true \/ c k = None).
Proof.
  unfold seeded. destruct (get t k) as [[|x l]|]; split.
  - discriminate.
  - intros (l' & E & Hn & _). injection E as <-. congruence.
  - intros H. exists (x :: l). split; [reflexivity|]. split; [discriminate|].
    rewrite existsb_ids in H. apply orb_true_iff in H as [H|H]; [now left|].
    right. destruct (c k); [discriminate|reflexivity].
  - intros (l' & E & _ & H). injection E as <-. rewrite existsb_ids.
    apply orb_true_iff. destruct H as [H|H]; [now left|]. right. now rewrite H.
  - discriminate.
  - intros (l' & E & _). discriminate.
Qed.

Lemma get_shape t t' k : shape t = shape t' ->
  option_map (map id) (get t k) = option_map (map id) (get t' k).
Proof.
  revert t'. induction t as [|[ch l] t IH]; intros [|[ch' l'] t'] H; simpl in *;
    try discriminate; [reflexivity|].
  injection H as <- Hl Ht. destruct (String.eqb ch k); simpl; [now rewrite Hl|exact (IH t' Ht)].
Qed.

Lemma seeded_shape c t t' k : shape t = shape t' -> seeded c t k = true -> seeded c t' k = true.
Proof.
  intros Hs H. apply seeded_iff in H as (l & E & Hn & Hx).
  pose proof (get_shape t t' k Hs) as G. rewrite E in G.
  destruct (get t' k) as [l'|] eqn:E'; [|discriminate]. injection G as G.
  apply seeded_iff. exists l'. split; [exact E'|]. split.
  - intros ->. destruct l; [congruence|discriminate].
  - rewrite <- G. exact Hx.
Qed.

Lemma get_create_other t ch n k : ch <> k -> get (create_in t ch n) k = get t k.
Proof.
  intros Hne. unfold create_in. rewrite get_set_other by exact Hne.
  destruct (is_default n); [|reflexivity].
  destruct (get t ch); [now apply get_set_other|reflexivity].
Qed.

Lemma get_create_same t ch n : get (create_in t ch n) ch = Some (get_or_nil (create_in t ch n) ch).
Proof. unfold create_in. now rewrite get_set_same, get_or_nil_set. Qed.

Lemma seeded_create c t ch n k : seeded c t k = true -> seeded c (create_in t ch n) k = true.
Proof.
  destruct (String.eqb_spec ch k) as [<-|Hne]; intros H; apply seeded_iff in H; apply seeded_iff.
  - destruct H as (l & E & Hn & Hx). eexists. split; [apply get_create_same|].
    rewrite get_or_nil_create. unfold get_or_nil. rewrite E. split.
    + intros Hc. apply app_eq_nil in Hc as [_ Hc]. discriminate.
    + destruct Hx as [Hx|Hx]; [left|right; exact Hx].
      rewrite map_app, existsb_app. apply orb_true_iff. left.
      destruct (is_default n); [rewrite ids_clear|]; exact Hx.
  - rewrite get_create_other by exact Hne. exact H.
Qed.

(** The hypotheses on the built-in templates: each built-in chapter list
    holds its built-in id, and the canonical template of a chapter has it. *)
Definition builtins_hold_ids (default_templates : tset) : Prop :=
  forall k dl, In (k, dl) default_templates ->
  existsb (fun x => String.eqb x.(id) (default_id k)) dl = true.

Definition canonical_ids (canonical_template : string -> option template) : Prop :=
  forall k d, canonical_template k = Some d -> id d = default_id k.

Lemma source_builtins_hold_ids : builtins_hold_ids source_default_templates.
Proof.
  intros k dl H. simpl in H.
  repeat (destruct H as [H|H]; [injection H as <- <-; reflexivity|]). destruct H.
Qed.

Lemma source_canonical_ids : canonical_ids source_canonical_template.
Proof.
  intros k d. unfold source_canonical_template.
  destruct (existsb _ _); [|discriminate]. intros H. injection H as <-. reflexivity.
Qed.

Lemma seeded_defaults D C k dl : builtins_hold_ids D -> In (k, dl) D -> seeded C D k = true.
Proof.
  intros Hd Hin. destruct (get_in_some D k dl Hin) as (dl' & Hg & Hin').
  pose proof (Hd k dl' Hin') as Hx. apply seeded_iff. exists dl'.
  split; [exact Hg|]. split; [intros ->; discriminate|]. left. now rewrite <- existsb_ids.
Qed.

Lemma load_after_save D C st pid t :
  (resolve_project_id pid = DEFAULT_PROJECT_ID -> forall k dl, In (k, dl) D -> seeded C t k = true) ->
  load_all_templates D C (save st pid t) pid = (t, save st pid t).
Proof.
  intros H. unfold load_all_templates; cbv zeta. rewrite save_at.
  destruct (String.eqb_spec (resolve_project_id pid) DEFAULT_PROJECT_ID) as [E|E]; [|reflexivity].
  rewrite (seed_fold_identity C D t false (H E)). reflexivity.
Qed.

Lemma load_seeded D C st pid : builtins_hold_ids D -> canonical_ids C ->
  resolve_project_id pid = DEFAULT_PROJECT_ID ->
  forall k dl, In (k, dl) D -> seeded C (fst (load_all_templates D C st pid)) k = true.
Proof.
  intros Hd Hc E k dl Hin. unfold load_all_templates; cbv zeta. rewrite E.
  destruct (st DEFAULT_PROJECT_ID) as [| |t]; cbn [fst].
  - change (initial_templates D DEFAULT_PROJECT_ID) with D. now apply (seeded_defaults D C k dl).
  - change (initial_templates D DEFAULT_PROJECT_ID) with D. now apply (seeded_defaults D C k dl).
  - change (String.eqb DEFAULT_PROJECT_ID DEFAULT_PROJECT_ID) with true.
    pose proof (seeded_fold C Hc D Hd t false k dl Hin) as H.
    destruct (fold_left (seed_chapter C) D (t, false)) as [t' u]. exact H.
Qed.

Lemma locate_none t tid : find_template t tid = None -> locate t tid = None.
Proof.
  intros H. rewrite (find_template_locate t tid 0) in H. unfold locate.
  destruct (locate_from 0 t tid) as [[[[k ch] l] i]|] eqn:E; [|reflexivity].
  destruct (locate_from_nth 0 t tid k ch l i E) as (_ & _ & Hi).
  destruct (index_of_nth _ _ _ Hi) as (x & Hx & _). congruence.
Qed.

End TemplateStore.

(* ------------------------------------------------------------------ *)
(** ** Template store: round trips, counts and lookups *)

Module TemplateExtras.
Import PromptManager TemplateLookup PromptManagerClaims TemplateFacts TemplateStore.

(** [update_template] followed by [get_template_by_id] on the same project
    returns the updated template, and this second load writes nothing; on
    the root project the ids the update keeps leave every built-in chapter
    seeded, so loading does not seed again. *)
Theorem update_template_then_get D C st pid tid nm sp up d ts x st' :
  builtins_hold_ids D -> canonical_ids C ->
  update_template D C st pid tid nm sp up d ts = (Some x, st') ->
  get_template_by_id D C st' pid tid = (Some x, st').
Proof.
  intros Hd Hc. unfold update_template.
  destruct (load_all_templates D C st pid) as [t st1] eqn:Hl.
  destruct (update_in t tid nm sp up d ts) as [[x' t']|] eqn:Hu; [|discriminate].
  intros E. injection E as <- <-.
  destruct (update_in_facts t tid nm sp up d ts x' t' Hu) as (Hs & k & ch & l2 & i & Hloc & Hx).
  unfold get_template_by_id. rewrite load_after_save.
  - cbv beta iota. f_equal. rewrite (find_template_locate t' tid 0).
    unfold locate in Hloc. rewrite Hloc. exact Hx.
  - intros E k0 dl Hin. apply (seeded_shape C t t'); [symmetry; exact Hs|].
    pose proof (load_seeded D C st pid Hd Hc E k0 dl Hin) as H. rewrite Hl in H. exact H.
Qed.

(** [create_template] with an id no template of the project has: the
    project then finds the new template by its id, and its chapter lists the
    templates it had (cleared of their flag when the new one is a default)
    followed by the new one; neither lookup writes anything. *)
Theorem create_template_then_get D C st pid ch nm sp up dflt tid ts n st' :
  builtins_hold_ids D -> canonical_ids C ->
  fst (get_template_by_id D C st pid tid) = None ->
  create_template D C st pid ch nm sp up dflt tid ts = (n, st') ->
  get_template_by_id D C st' pid tid = (Some n, st')
  /\ get_templates_by_chapter D C st' pid ch
     = ((if dflt then map (set_default false) (fst (get_templates_by_chapter D C st pid ch))
         else fst (get_templates_by_chapter D C st pid ch)) ++ [n], st').
Proof.
  intros Hd Hc. unfold get_template_by_id, get_templates_by_chapter, create_template.
  destruct (load_all_templates D C st pid) as [t st1] eqn:Hl. cbv beta iota zeta.
  intros Hnone E. injection E as <- <-.
  assert (Hseed : resolve_project_id pid = DEFAULT_PROJECT_ID ->
                  forall k dl, In (k, dl) D -> seeded C (create_in t ch
                    {| id := tid; name := nm; chapter := ch; system_prompt := sp;
                       user_prompt_template := up; is_default := dflt;
                       created_at := ts; updated_at := ts |}) k = true).
  { intros E k dl Hin. apply seeded_create.
    pose proof (load_seeded D C st pid Hd Hc E k dl Hin) as H. rewrite Hl in H. exact H. }
  rewrite (load_after_save _ _ _ _ _ Hseed).
  cbv beta iota. split.
  - f_equal. now apply find_create.
  - f_equal. apply get_or_nil_create.
Qed.

(** A successful [create_template] saves the project file with one
    template more than the loaded set. *)
Theorem create_template_count D C st pid ch nm sp up dflt tid ts n st' :
  create_template D C st pid ch nm sp up dflt tid ts = (n, st') ->
  exists t', st' (resolve_project_id pid) = Valid t'
    /\ template_count t' = S (template_count (fst (load_all_templates D C st pid))).
Proof.
  unfold create_template. destruct (load_all_templates D C st pid) as [t st1] eqn:Hl.
  intros E. injection E as _ <-. eexists. split; [apply save_at|]. apply count_create.
Qed.

(** A successful [delete_template] saves the project file with one
    template fewer than the loaded set. *)
Theorem delete_template_count D C st pid tid st' :
  delete_template D C st pid tid = (true, st') ->
  exists t', st' (resolve_project_id pid) = Valid t'
    /\ S (template_count t') = template_count (fst (load_all_templates D C st pid)).
Proof.
  unfold delete_template. destruct (load_all_templates D C st pid) as [t st1] eqn:Hl.
  destruct (delete_in t tid) as [t'|] eqn:Hd; [|discriminate].
  intros E. injection E as <-. exists t'. split; [apply save_at|]. simpl.
  destruct (delete_in_facts t tid t' Hd) as (k & ch & l & l' & Hk & -> & Hlen & H2).
  pose proof (count_update_nth t k ch l l' Hk). lia.
Qed.

(** A successful [update_template] saves a set with the chapters of the
    loaded set, in order, each holding the same ids in the same order: it
    never adds, removes or moves a template. *)
Theorem update_template_shape D C st pid tid nm sp up d ts x st' :
  update_template D C st pid tid nm sp up d ts = (Some x, st') ->
  exists t', st' (resolve_project_id pid) = Valid t'
    /\ shape t' = shape (fst (load_all_templates D C st pid)).
Proof.
  unfold update_template. destruct (load_all_templates D C st pid) as [t st1] eqn:Hl.
  destruct (update_in t tid nm sp up d ts) as [[x' t']|] eqn:Hu; [|discriminate].
  intros E. injection E as _ <-. exists t'. split; [apply save_at|].
  exact (proj1 (update_in_facts t tid nm sp up d ts x' t' Hu)).
Qed.

(** For an id [get_template_by_id] does not find, [update_template]
    returns [None] and [delete_template] returns [false], and both leave
    the store as loading left it. *)
Theorem unknown_id_no_write D C st pid tid nm sp up d ts :
  fst (get_template_by_id D C st pid tid) = None ->
  update_template D C st pid tid nm sp up d ts = (None, snd (load_all_templates D C st pid))
  /\ delete_template D C st pid tid = (false, snd (load_all_templates D C st pid)).
Proof.
  unfold get_template_by_id, update_template, delete_template.
  destruct (load_all_templates D C st pid) as [t st1]. cbv beta iota. simpl fst.
  intros H. apply locate_none in H. unfold update_in, delete_in. rewrite H. auto.
Qed.

(** If the loaded set has no empty chapter list, neither has the set a
    successful [create_template], [update_template] or [delete_template]
    saves. *)
Theorem mutations_keep_lists_nonempty D C st pid :
  no_empty_list (fst (load_all_templates D C st pid)) = true ->
  (forall ch nm sp up dflt tid ts n st',
     create_template D C st pid ch nm sp up dflt tid ts = (n, st') ->
     exists t', st' (resolve_project_id pid) = Valid t' /\ no_empty_list t' = true)
  /\ (forall tid nm sp up d ts x st',
     update_template D C st pid tid nm sp up d ts = (Some x, st') ->
     exists t', st' (resolve_project_id pid) = Valid t' /\ no_empty_list t' = true)
  /\ (forall tid st', delete_template D C st pid tid = (true, st') ->
     exists t', st' (resolve_project_id pid) = Valid t' /\ no_empty_list t' = true).
Proof.
  unfold create_template, update_template, delete_template.
  destruct (load_all_templates D C st pid) as [t st1]. simpl fst. intros H.
  split; [|split].
  - intros ch nm sp up dflt tid ts n st' E. injection E as _ <-.
    eexists. split; [apply save_at|]. now apply nel_create.
  - intros tid nm sp up d ts x st'.
    destruct (update_in t tid nm sp up d ts) as [[x' t']|] eqn:Hu; [|discriminate].
    intros E. injection E as _ <-. exists t'. split; [apply save_at|].
    exact (nel_update_in t tid nm sp up d ts x' t' H Hu).
  - intros tid st'. destruct (delete_in t tid) as [t'|] eqn:Hd; [|discriminate].
    intros E. injection E as <-. exists t'. split; [apply save_at|].
    exact (nel_delete_in t tid t' H Hd).
Qed.

(** Loading twice gives what loading once gives: the saves of the first
    load (the initial set of a missing or corrupt file, the seeded root set)
    make the second load read the same set and write nothing. *)
Theorem load_all_templates_idempotent D C st pid :
  builtins_hold_ids D -> canonical_ids C ->
  load_all_templates D C (snd (load_all_templates D C st pid)) pid = load_all_templates D C st pid.
Proof.
  intros Hd Hc. destruct (load_all_templates D C st pid) as [t st1] eqn:Hl. simpl snd.
  pose proof Hl as Hl0. revert Hl. unfold load_all_templates at 1; cbv zeta.
  destruct (st (resolve_project_id pid)) as [| |t0] eqn:Es.
  - intros E. injection E as <- <-. rewrite save_resolve. apply load_after_save.
    intros E k dl Hin. rewrite E. now apply (seeded_defaults D C k dl).
  - intros E. injection E as <- <-. rewrite save_resolve. apply load_after_save.
    intros E k dl Hin. rewrite E. now apply (seeded_defaults D C k dl).
  - destruct (String.eqb_spec (resolve_project_id pid) DEFAULT_PROJECT_ID) as [E|E].
    + destruct (fold_left (seed_chapter C) D (t0, false)) as [t' u] eqn:F.
      destruct u; intros R; injection R as <- <-.
      * rewrite save_resolve. apply load_after_save. intros _ k dl Hin.
        pose proof (seeded_fold C Hc D Hd t0 false k dl Hin) as H. rewrite F in H. exact H.
      * exact Hl0.
    + intros R. injection R as <- <-. exact Hl0.
Qed.

(** When every built-in chapter list is non-empty, [get_default_template]
    finds a template for a built-in chapter in every project: from the
    project's own list, or else from the root project. *)
Theorem builtin_chapter_has_default D C st pid k dl :
  (forall k dl, In (k, dl) D -> dl <> []) -> In (k, dl) D ->
  fst (get_default_template D C st pid k) <> None.
Proof.
  intros Hne Hin. unfold get_default_template.
  destruct (load_all_templates D C st pid) as [t st1] eqn:Hl.
  destruct (get_or_nil t k) as [|x l] eqn:Eg.
  - destruct (String.eqb_spec pid DEFAULT_PROJECT_ID) as [E|E]; simpl negb; cbv iota.
    + exfalso. subst pid. pose proof (load_root_nonempty D C st k dl Hne Hin) as H.
      rewrite Hl in H. simpl in H. unfold nonempty_at in H. unfold get_or_nil in Eg.
      destruct (get t k) as [[|]|]; discriminate.
    + destruct (load_all_templates D C st1 DEFAULT_PROJECT_ID) as [dt st2] eqn:Hl2.
      pose proof (load_root_nonempty D C st1 k dl Hne Hin) as H. rewrite Hl2 in H. simpl in H.
      unfold nonempty_at in H. unfold get_or_nil.
      destruct (get dt k) as [[|y r]|]; discriminate.
  - cbv iota. unfold flagged_or_first. destruct (flagged_or_first_go (x :: l)); simpl; [discriminate|discriminate].
Qed.

End TemplateExtras.

Module TemplateExtrasWitnesses.
Import PromptManager TemplateLookup PromptManagerClaims TemplateStore TemplateExtras.

Lemma source_defaults_nonempty : forall k dl, In (k, dl) source_default_templates -> dl <> [].
Proof.
  intros k dl H. simpl in H.
  repeat (destruct H as [H|H]; [injection H as <- <-; discriminate|]). destruct H.
Qed.

(** A root file holding only a custom chapter. *)
Definition custom_root_store : store := fun q =>
  if String.eqb q "default" then Valid [("custom"%string, [tmpl "x" false "custom"])]
  else Missing.

Lemma update_template_then_get_witness :
  get_template_by_id source_default_templates source_canonical_template
    (snd (update_template source_default_templates source_canonical_template sample_store
            "default" "default_chapter_2" (Some "renamed"%string) None None None "t1"))
    "default" "default_chapter_2"
  = (Some (update_fields (Some "renamed"%string) None None None "t1" (builtin "chapter_2")),
     snd (update_template source_default_templates source_canonical_template sample_store
            "default" "default_chapter_2" (Some "renamed"%string) None None None "t1")).
Proof.
  apply (update_template_then_get source_default_templates source_canonical_template
           sample_store "default" "default_chapter_2" (Some "renamed"%string) None None None "t1").
  - exact source_builtins_hold_ids.
  - exact source_canonical_ids.
  - reflexivity.
Defined.

Lemma create_template_then_get_witness :
  let r := create_template source_default_templates source_canonical_template custom_root_store
             "default" "chapter_1" "n" "s" "u" true "new" "now" in
  get_template_by_id source_default_templates source_canonical_template (snd r) "default" "new"
    = (Some (fst r), snd r)
  /\ get_templates_by_chapter source_default_templates source_canonical_template (snd r)
       "default" "chapter_1"
     = (map (set_default false)
          (fst (get_templates_by_chapter source_default_templates source_canonical_template
                  custom_root_store "default" "chapter_1")) ++ [fst r], snd r).
Proof.
  intros r.
  exact (create_template_then_get source_default_templates source_canonical_template
           custom_root_store "default" "chapter_1" "n" "s" "u" true "new" "now" (fst r) (snd r)
           source_builtins_hold_ids source_canonical_ids eq_refl eq_refl).
Defined.

Lemma create_template_count_witness :
  exists t', snd (create_template source_default_templates source_canonical_template sample_store
                   "p1" "chapter_2" "n" "s" "u" false "new" "now") "p1"%string = Valid t'
    /\ template_count t' = 3.
Proof.
  destruct (create_template_count source_default_templates source_canonical_template sample_store
              "p1" "chapter_2" "n" "s" "u" false "new" "now"
              (fst (create_template source_default_templates source_canonical_template
                      sample_store "p1" "chapter_2" "n" "s" "u" false "new" "now"))
              (snd (create_template source_default_templates source_canonical_template
                      sample_store "p1" "chapter_2" "n" "s" "u" false "new" "now"))
              eq_refl) as (t' & H1 & H2).
  exists t'. split; [exact H1|]. rewrite H2. reflexivity.
Defined.

Lemma delete_template_count_witness :
  exists t', snd (delete_template source_default_templates source_canonical_template sample_store
                   "p1" "a") "p1"%string = Valid t'
    /\ template_count t' = 1.
Proof.
  destruct (delete_template_count source_default_templates source_canonical_template sample_store
              "p1" "a"
              (snd (delete_template source_default_templates source_canonical_template
                      sample_store "p1" "a"))
              eq_refl) as (t' & H1 & H2).
  exists t'. split; [exact H1|]. vm_compute in H2. injection H2 as H2. exact H2.
Defined.

Lemma update_template_shape_witness :
  exists t', snd (update_template source_default_templates source_canonical_template sample_store
                   "p1" "b" None None None (Some true) "t1") "p1"%string = Valid t'
    /\ shape t' = [("chapter_1"%string, ["a"; "b"]%string)].
Proof.
  destruct (update_template_shape source_default_templates source_canonical_template sample_store
              "p1" "b" None None None (Some true) "t1"
              (update_fields None None None (Some true) "t1" (tmpl "b" false "chapter_1"))
              (snd (update_template source_default_templates source_canonical_template
                      sample_store "p1" "b" None None None (Some true) "t1"))
              eq_refl) as (t' & H1 & H2).
  exists t'. split; [exact H1|]. rewrite H2. reflexivity.
Defined.

Lemma unknown_id_no_write_witness :
  update_template source_default_templates source_canonical_template sample_store
    "p1" "zzz" (Some "n"%string) None None None "t1"
  = (None, snd (load_all_templates source_default_templates source_canonical_template
                  sample_store "p1"))
  /\ delete_template source_default_templates source_canonical_template sample_store "p1" "zzz"
  = (false, snd (load_all_templates source_default_templates source_canonical_template
                   sample_store "p1")).
Proof.
  apply (unknown_id_no_write source_default_templates source_canonical_template sample_store
           "p1" "zzz" (Some "n"%string) None None None "t1").
  vm_compute. reflexivity.
Defined.

Lemma mutations_keep_lists_nonempty_witness :
  exists t', snd (create_template source_default_templates source_canonical_template
                   custom_root_store "default" "chapter_3" "n" "" "" true "new" "now")
               "default"%string = Valid t'
    /\ no_empty_list t' = true.
Proof.
  destruct (mutations_keep_lists_nonempty source_default_templates source_canonical_template
              custom_root_store "default") as [Hc _].
  - vm_compute. reflexivity.
  - exact (Hc "chapter_3"%string "n"%string ""%string ""%string true "new"%string "now"%string _
             _ eq_refl).
Defined.

Lemma load_all_templates_idempotent_witness :
  load_all_templates source_default_templates source_canonical_template
    (snd (load_all_templates source_default_templates source_canonical_template
            custom_root_store "default")) "default"
  = load_all_templates source_default_templates source_canonical_template
      custom_root_store "default".
Proof.
  exact (load_all_templates_idempotent source_default_templates source_canonical_template
           custom_root_store "default" source_builtins_hold_ids source_canonical_ids).
Defined.

Lemma builtin_chapter_has_default_witness :
  fst (get_default_template source_default_templates source_canonical_template sample_store
         "p1" "chapter_2") <> None.
Proof.
  apply (builtin_chapter_has_default source_default_templates source_canonical_template
           sample_store "p1" "chapter_2" [builtin "chapter_2"]).
  - exact source_defaults_nonempty.
  - simpl. right. left. reflexivity.
Defined.

End TemplateExtrasWitnesses.

Module ParserExtrasWitnesses.
Import PyStr ChapterParser ParserExtras.

Lemma parse_titles_nonempty_witness :
  title (hd {| title := []; content := [] |} (parse (u "# Intro" ++ [10%N] ++ u "body"))) <> [].
Proof.
  apply (parse_titles_nonempty (u "# Intro" ++ [10%N] ++ u "body")).
  vm_compute. left. reflexivity.
Defined.

End ParserExtrasWitnesses.

(* ------------------------------------------------------------------ *)
(** ** [ProjectManager]: the project index [projects/index.json] *)

(** The index file and the operations on it; the directories the class
    creates, moves and removes are not modelled.  An operation is a
    function of the index file to its result (a value or the exception it
    raises) and the index file after it. *)
Module ProjectManager.
Import PyStr.

(** A project entry of the index. *)
Record project := mkProject {
  id : string;
  name : ustr;
  created_at : string;
  updated_at : string
}.

Definition DEFAULT_PROJECT_ID : string := PromptManager.DEFAULT_PROJECT_ID.

(** ["事件月报"] *)
Definition DEFAULT_PROJECT_NAME : ustr := [20107; 20214; 26376; 25253]%N.

Definition resolve_project_id : string -> string := PromptManager.resolve_project_id.

(** The exceptions raised: the [ValueError]s of the class and the
    [json.JSONDecodeError] of reading an index that does not parse. *)
Inductive error :=
| NameRequired
| IdRequired
| DefaultNotDeletable
| NotFound (project_id : string)
| DecodeError.

Inductive result (A : Type) := Ok (a : A) | Err (e : error).
Arguments Ok {A} a.
Arguments Err {A} e.

Inductive index := IMissing | ICorrupt | IValid (projects : list project).

Definition M (A : Type) : Type := index -> result A * index.

Definition ret {A : Type} (a : A) : M A := fun ix => (Ok a, ix).

Definition raise {A : Type} (e : error) : M A := fun ix => (Err e, ix).

Definition bind {A B : Type} (m : M A) (f : A -> M B) : M B :=
  fun ix => match m ix with
            | (Ok a, ix1) => f a ix1
            | (Err e, ix1) => (Err e, ix1)
            end.

Notation "x <- m ;; f" := (bind m (fun x => f)) (at level 61, m at next level, right associativity).

(** [cls.INDEX_FILE.exists()] *)
Definition index_exists : M bool :=
  fun ix => (Ok match ix with IMissing => false | _ => true end, ix).

(** [_load_projects_raw()] *)
Definition _load_projects_raw : M (list project) :=
  fun ix => match ix with
            | IMissing => (Ok [], ix)
            | ICorrupt => (Err DecodeError, ix)
            | IValid ps => (Ok ps, ix)
            end.

(** [_save_projects(projects)] *)
Definition _save_projects (ps : list project) : M unit := fun _ => (Ok tt, IValid ps).

(** [_build_project_entry(project_id, name)], [now] the current time. *)
Definition _build_project_entry (project_id : string) (name_ : ustr) (now : string) : project :=
  {| id := project_id; name := name_; created_at := now; updated_at := now |}.

Definition is_default_project (p : project) : bool := String.eqb p.(id) DEFAULT_PROJECT_ID.

(** [ensure_initialized()] *)
Definition ensure_initialized (now : string) : M unit :=
  ex <- index_exists ;;
  if negb ex then
    _save_projects [_build_project_entry DEFAULT_PROJECT_ID DEFAULT_PROJECT_NAME now]
  else
    projects <- _load_projects_raw ;;
    if negb (existsb is_default_project projects) then
      _save_projects (_build_project_entry DEFAULT_PROJECT_ID DEFAULT_PROJECT_NAME now :: projects)
    else ret tt.

(** [list_projects()] *)
Definition list_projects (now : string) : M (list project) :=
  _ <- ensure_initialized now ;; _load_projects_raw.

(** [get_project(project_id)] *)
Definition get_project (now project_id : string) : M project :=
  _ <- ensure_initialized now ;;
  projects <- _load_projects_raw ;;
  match List.find (fun p => String.eqb p.(id) project_id) projects with
  | Some p => ret p
  | None => raise (NotFound project_id)
  end.

(** [ensure_project_dirs(project_id)] on the index: it validates that the
    project exists and returns the resolved id (its directories are not
    modelled). *)
Definition ensure_project_dirs (now project_id : string) : M string :=
  _ <- ensure_initialized now ;;
  let pid := resolve_project_id project_id in
  _ <- get_project now pid ;;
  ret pid.

(** [create_project(name)]; [new_id] is the fresh [uuid4]. *)
Definition create_project (now new_id : string) (name_ : ustr) : M project :=
  if ustr_eqb name_ [] || ustr_eqb (strip name_) [] then raise NameRequired
  else
    _ <- ensure_initialized now ;;
    let entry := _build_project_entry new_id (strip name_) now in
    projects <- _load_projects_raw ;;
    _ <- _save_projects (projects ++ [entry]) ;;
    _ <- ensure_project_dirs now new_id ;;
    ret entry.

(** [delete_project(project_id)]; the result is the returned id. *)
Definition delete_project (now project_id : string) : M string :=
  if String.eqb project_id "" then raise IdRequired
  else
    _ <- ensure_initialized now ;;
    let pid := resolve_project_id project_id in
    if String.eqb pid DEFAULT_PROJECT_ID then raise DefaultNotDeletable
    else
      projects <- _load_projects_raw ;;
      let remaining := filter (fun p => negb (String.eqb p.(id) pid)) projects in
      if Nat.eqb (List.length remaining) (List.length projects) then raise (NotFound pid)
      else
        _ <- _save_projects remaining ;;
        ret pid.

End ProjectManager.

Module ProjectManagerFacts.
Import PyStr ProjectManager.

Lemma bind_ok {A B : Type} (m : M A) (f : A -> M B) ix a ix1 :
  m ix = (Ok a, ix1) -> bind m f ix = f a ix1.
Proof. unfold bind. intros ->. reflexivity. Qed.

Lemma bind_err {A B : Type} (m : M A) (f : A -> M B) ix e ix1 :
  m ix = (Err e, ix1) -> bind m f ix = (Err e, ix1).
Proof. unfold bind. intros ->. reflexivity. Qed.

Lemma ensure_noop now ps : existsb is_default_project ps = true ->
  ensure_initialized now (IValid ps) = (Ok tt, IValid ps).
Proof.
  intros H. unfold ensure_initialized, bind, index_exists, _load_projects_raw. simpl.
  rewrite H. reflexivity.
Qed.

Lemma ensure_valid now ix : ix <> ICorrupt ->
  exists ps, ensure_initialized now ix = (Ok tt, IValid ps)
    /\ existsb is_default_project ps = true
    /\ (forall p, In p (match ix with IValid qs => qs | _ => [] end) -> In p ps).
Proof.
  intros Hc. destruct ix as [| |qs]; [|congruence|].
  - eexists. split; [reflexivity|]. split; [reflexivity|]. intros p [].
  - destruct (existsb is_default_project qs) eqn:E.
    + exists qs. split; [now apply ensure_noop|]. auto.
    + exists (_build_project_entry DEFAULT_PROJECT_ID DEFAULT_PROJECT_NAME now :: qs).
      split; [unfold ensure_initialized, bind, index_exists, _load_projects_raw; simpl;
              rewrite E; reflexivity|].
      split; [reflexivity|]. intros p Hp. now right.
Qed.

Lemma ensure_corrupt now : ensure_initialized now ICorrupt = (Err DecodeError, ICorrupt).
Proof. reflexivity. Qed.

Lemma get_project_valid now pid ps : existsb is_default_project ps = true ->
  get_project now pid (IValid ps)
  = (match List.find (fun p => String.eqb p.(id) pid) ps with
     | Some p => Ok p | None => Err (NotFound pid) end, IValid ps).
Proof.
  intros H. unfold get_project. rewrite (bind_ok _ _ _ tt _ (ensure_noop now ps H)).
  unfold bind, _load_projects_raw. destruct (List.find _ ps); reflexivity.
Qed.

Lemma ensure_project_dirs_valid now pid ps : existsb is_default_project ps = true ->
  ensure_project_dirs now pid (IValid ps)
  = (match List.find (fun p => String.eqb p.(id) (resolve_project_id pid)) ps with
     | Some _ => Ok (resolve_project_id pid)
     | None => Err (NotFound (resolve_project_id pid)) end, IValid ps).
Proof.
  intros H. unfold ensure_project_dirs. rewrite (bind_ok _ _ _ tt _ (ensure_noop now ps H)).
  pose proof (get_project_valid now (resolve_project_id pid) ps H) as G.
  destruct (List.find _ ps).
  - rewrite (bind_ok _ _ _ _ _ G). reflexivity.
  - rewrite (bind_err _ _ _ _ _ G). reflexivity.
Qed.

Lemma find_app {A : Type} (f : A -> bool) l1 l2 :
  List.find f (l1 ++ l2) = match List.find f l1 with Some x => Some x | None => List.find f l2 end.
Proof. induction l1 as [|x l1 IH]; simpl; [reflexivity|]. destruct (f x); auto. Qed.

Lemma find_none_existsb {A : Type} (f : A -> bool) l : existsb f l = false -> List.find f l = None.
Proof.
  induction l as [|x l IH]; simpl; [reflexivity|].
  intros H. apply orb_false_iff in H as [H1 H2]. rewrite H1. exact (IH H2).
Qed.

Lemma find_filter_negb {A : Type} (f : A -> bool) l : List.find f (filter (fun x => negb (f x)) l) = None.
Proof.
  induction l as [|x l IH]; simpl; [reflexivity|].
  destruct (f x) eqn:E; simpl; [exact IH|]. rewrite E. exact IH.
Qed.

Lemma filter_negb_same {A : Type} (f : A -> bool) l : existsb f l = false ->
  filter (fun x => negb (f x)) l = l.
Proof.
  induction l as [|x l IH]; simpl; [reflexivity|].
  intros H. apply orb_false_iff in H as [H1 H2]. rewrite H1. simpl. now rewrite IH.
Qed.

Lemma existsb_filter {A : Type} (g h : A -> bool) l :
  existsb g l = true -> (forall x, g x = true -> h x = true) -> existsb g (filter h l) = true.
Proof.
  intros H Hgh. induction l as [|x l IH]; simpl in *; [discriminate|].
  destruct (g x) eqn:Eg.
  - rewrite (Hgh x Eg). simpl. now rewrite Eg.
  - destruct (h x); simpl; [rewrite Eg|]; simpl; exact (IH H).
Qed.

End ProjectManagerFacts.

Module ProjectManagerExtras.
Import PyStr ProjectManager ProjectManagerFacts.

(** [ensure_initialized] on an index that is missing or parses: it
    succeeds, keeps every entry, leaves a default entry in the index, and
    run again changes nothing. *)
Theorem ensure_initialized_default now ix : ix <> ICorrupt ->
  exists ps, ensure_initialized now ix = (Ok tt, IValid ps)
    /\ existsb is_default_project ps = true
    /\ (forall p, In p (match ix with IValid qs => qs | _ => [] end) -> In p ps)
    /\ forall now', ensure_initialized now' (IValid ps) = (Ok tt, IValid ps).
Proof.
  intros Hc. destruct (ensure_valid now ix Hc) as (ps & H1 & H2 & H3).
  exists ps. split; [exact H1|]. split; [exact H2|]. split; [exact H3|].
  intros now'. now apply ensure_noop.
Qed.

(** An index that does not parse is never written: every operation raises,
    [json.JSONDecodeError] once it reads the index. *)
Theorem corrupt_index_never_written now pid nid nm :
  list_projects now ICorrupt = (Err DecodeError, ICorrupt)
  /\ get_project now pid ICorrupt = (Err DecodeError, ICorrupt)
  /\ (exists e, create_project now nid nm ICorrupt = (Err e, ICorrupt))
  /\ (exists e, delete_project now pid ICorrupt = (Err e, ICorrupt)).
Proof.
  split; [reflexivity|]. split; [reflexivity|]. split.
  - unfold create_project. destruct (_ || _); eexists; reflexivity.
  - unfold delete_project. destruct (String.eqb pid ""); eexists; reflexivity.
Qed.

(** [create_project] with a name that is empty or all whitespace raises
    before it reads or writes the index. *)
Theorem create_project_blank_name now nid nm ix : strip nm = [] ->
  create_project now nid nm ix = (Err NameRequired, ix).
Proof.
  intros H. unfold create_project. rewrite H.
  replace (ustr_eqb [] []) with true by reflexivity. rewrite orb_true_r. reflexivity.
Qed.

(** A successful [create_project] returns the entry with the fresh id and
    the stripped name, which is not empty, and saves the index
    [ensure_initialized] left with the entry appended; when no earlier entry
    has the id, [get_project] then returns the new entry. *)
Theorem create_project_then_get now nid nm ix e ix' :
  create_project now nid nm ix = (Ok e, ix') ->
  e = _build_project_entry nid (strip nm) now /\ strip nm <> []
  /\ exists ps, ensure_initialized now ix = (Ok tt, IValid ps) /\ ix' = IValid (ps ++ [e])
     /\ (existsb (fun p => String.eqb p.(id) nid) ps = false ->
         forall now', get_project now' nid ix' = (Ok e, ix')).
Proof.
  unfold create_project.
  destruct (ustr_eqb nm [] || ustr_eqb (strip nm) []) eqn:Eb; [discriminate|].
  apply orb_false_iff in Eb as [_ Eb].
  assert (Hne : strip nm <> []) by (intros H; rewrite H in Eb; discriminate).
  destruct ix as [| |qs] eqn:Eix; [| intros H; discriminate |];
    (destruct (ensure_valid now ix ltac:(subst; discriminate)) as (ps & Hens & Hdef & _);
     subst ix; rewrite (bind_ok _ _ _ tt _ Hens);
     set (entry := _build_project_entry nid (strip nm) now);
     rewrite (bind_ok _ _ (IValid ps) ps (IValid ps)) by reflexivity;
     rewrite (bind_ok _ _ (IValid ps) tt (IValid (ps ++ [entry]))) by reflexivity;
     assert (Hdef' : existsb is_default_project (ps ++ [entry]) = true)
       by (rewrite existsb_app, Hdef; reflexivity);
     pose proof (ensure_project_dirs_valid now nid _ Hdef') as Hepd;
     destruct (List.find _ (ps ++ [entry])) in Hepd;
       [rewrite (bind_ok _ _ _ _ _ Hepd)|rewrite (bind_err _ _ _ _ _ Hepd); discriminate];
     unfold ret; intros H; injection H as <- <-;
     split; [reflexivity|]; split; [exact Hne|];
     exists ps; split; [exact Hens|]; split; [reflexivity|];
     intros Hfresh now'; rewrite get_project_valid by exact Hdef';
     rewrite find_app, (find_none_existsb _ _ Hfresh); simpl; rewrite String.eqb_refl; reflexivity).
Qed.

(** A successful [delete_project] returns the resolved id, which is not
    the default project's and which an entry had; it saves the index
    [ensure_initialized] left without every entry of that id, the default
    entry kept, and [get_project] no longer finds the id. *)
Theorem delete_project_removes now pid ix pid' ix' :
  delete_project now pid ix = (Ok pid', ix') ->
  pid' = resolve_project_id pid /\ pid' <> DEFAULT_PROJECT_ID
  /\ exists ps, ensure_initialized now ix = (Ok tt, IValid ps)
     /\ existsb (fun p => String.eqb p.(id) pid') ps = true
     /\ ix' = IValid (filter (fun p => negb (String.eqb p.(id) pid')) ps)
     /\ existsb is_default_project (filter (fun p => negb (String.eqb p.(id) pid')) ps) = true
     /\ forall now', get_project now' pid' ix' = (Err (NotFound pid'), ix').
Proof.
  unfold delete_project. destruct (String.eqb pid "") eqn:E0; [discriminate|].
  destruct ix as [| |qs] eqn:Eix; [| intros H; discriminate |];
    (destruct (ensure_valid now ix ltac:(subst; discriminate)) as (ps & Hens & Hdef & _);
     subst ix; rewrite (bind_ok _ _ _ tt _ Hens);
     destruct (String.eqb_spec (resolve_project_id pid) DEFAULT_PROJECT_ID) as [Ed|Ed];
       [discriminate|];
     rewrite (bind_ok _ _ (IValid ps) ps (IValid ps)) by reflexivity;
     pose (f := fun p => String.eqb p.(id) (resolve_project_id pid));
     change (fun p => negb (String.eqb p.(id) (resolve_project_id pid)))
       with (fun p => negb (f p));
     destruct (existsb f ps) eqn:Ex;
       [|rewrite (filter_negb_same f ps Ex), Nat.eqb_refl; discriminate];
     destruct (Nat.eqb _ _); [discriminate|];
     unfold bind, _save_projects, ret; intros H; injection H as <- <-;
     assert (Hdef' : existsb is_default_project (filter (fun p => negb (f p)) ps) = true)
       by (apply existsb_filter; [exact Hdef|];
           intros p Hp; unfold is_default_project in Hp; apply String.eqb_eq in Hp;
           unfold f; rewrite Hp; apply negb_true_iff, String.eqb_neq; congruence);
     split; [reflexivity|]; split; [exact Ed|];
     exists ps; split; [exact Hens|]; split; [exact Ex|]; split; [reflexivity|];
     split; [exact Hdef'|];
     intros now'; rewrite get_project_valid by exact Hdef';
     fold f; rewrite find_filter_negb; reflexivity).
Qed.

(** [delete_project] refuses the empty id before reading the index, and
    refuses the default project once [ensure_initialized] ran, whose writes
    stay. *)
Theorem delete_project_refuses now ix : ix <> ICorrupt ->
  delete_project now "" ix = (Err IdRequired, ix)
  /\ delete_project now DEFAULT_PROJECT_ID ix
     = (Err DefaultNotDeletable, snd (ensure_initialized now ix)).
Proof.
  intros Hc. split; [reflexivity|].
  destruct (ensure_valid now ix Hc) as (ps & Hens & _).
  unfold delete_project. change (String.eqb DEFAULT_PROJECT_ID "") with false. cbv iota.
  rewrite (bind_ok _ _ _ tt _ Hens), Hens. reflexivity.
Qed.

End ProjectManagerExtras.

(* ------------------------------------------------------------------ *)
(** ** [ProjectStorage]: the chapter data file [data.json] of a project *)

(** The payload of [data.json]; [chapters] is its ["chapters"] dictionary in
    insertion order (a parsed file without the key reads as the empty
    dictionary, which is what [payload.setdefault("chapters", {})] gives).
    An entry has the four keys the class writes; the value
    [entry.get("generated_content", "")] reads is a string, JSON [null] or
    the key being absent.  The timestamps one call takes are one value
    [now]. *)
Module ProjectStorage.

Inductive content := Absent | Null | Str (s : string).

Record entry := mkEntry {
  chapter_id : string;
  input_data : string;
  generated_content : content;
  updated_at : option string
}.

Record payload := mkPayload {
  project_id : string;
  payload_updated_at : string;
  chapters : list (string * entry)
}.

Inductive data_file := DMissing | DCorrupt | DValid (p : payload).

(** [d.get(k)] and [d[k] = v] on a dictionary in insertion order. *)
Fixpoint dget {A : Type} (d : list (string * A)) (k : string) : option A :=
  match d with
  | [] => None
  | (k', v) :: d' => if String.eqb k' k then Some v else dget d' k
  end.

Fixpoint dset {A : Type} (d : list (string * A)) (k : string) (v : A) : list (string * A) :=
  match d with
  | [] => [(k, v)]
  | (k', v') :: d' => if String.eqb k' k then (k', v) :: d' else (k', v') :: dset d' k v
  end.

(** [_initial_payload] *)
Definition _initial_payload (project_id_ now : string) : payload :=
  {| project_id := project_id_; payload_updated_at := now; chapters := [] |}.

(** [_load()] *)
Definition _load (project_id_ now : string) (f : data_file) : payload :=
  match f with
  | DValid p => p
  | DMissing | DCorrupt => _initial_payload project_id_ now
  end.

(** [_save(payload)] *)
Definition _save (now : string) (p : payload) : data_file :=
  DValid {| project_id := p.(project_id); payload_updated_at := now; chapters := p.(chapters) |}.

Definition blank_entry (chapter_id_ : string) : entry :=
  {| chapter_id := chapter_id_; input_data := ""; generated_content := Str "";
     updated_at := None |}.

(** [get_chapter_data(chapter_id)] *)
Definition get_chapter_data (project_id_ now : string) (f : data_file) (chapter_id_ : string)
  : entry :=
  match dget (_load project_id_ now f).(chapters) chapter_id_ with
  | Some e => e
  | None => blank_entry chapter_id_
  end.

Definition with_chapters (p : payload) (chs : list (string * entry)) : payload :=
  {| project_id := p.(project_id); payload_updated_at := p.(payload_updated_at); chapters := chs |}.

(** [set_chapter_data(chapter_id, input_data, generated_content)]: the
    entry returned and the file after the save. *)
Definition set_chapter_data (project_id_ now : string) (f : data_file)
  (chapter_id_ input_data_ : string) (generated_content_ : option string) : entry * data_file :=
  let p := _load project_id_ now f in
  let e0 := match dget p.(chapters) chapter_id_ with
            | Some e => e | None => blank_entry chapter_id_ end in
  let e := {| chapter_id := e0.(chapter_id); input_data := input_data_;
              generated_content := match generated_content_ with
                                   | Some g => Str g | None => e0.(generated_content) end;
              updated_at := Some now |} in
  (e, _save now (with_chapters p (dset p.(chapters) chapter_id_ e))).

(** [set_generated_content(chapter_id, generated_content)] *)
Definition set_generated_content (project_id_ now : string) (f : data_file)
  (chapter_id_ generated_content_ : string) : entry * data_file :=
  let p := _load project_id_ now f in
  let e0 := match dget p.(chapters) chapter_id_ with
            | Some e => e | None => blank_entry chapter_id_ end in
  let e := {| chapter_id := e0.(chapter_id); input_data := e0.(input_data);
              generated_content := Str generated_content_; updated_at := Some now |} in
  (e, _save now (with_chapters p (dset p.(chapters) chapter_id_ e))).

(** The inner [_clear(entry)]: the cleared entry, or [None] when it returns
    [False]; [None != ""] holds, so a [null] content is cleared by the first
    test. *)
Definition _clear (now : string) (e : entry) : option entry :=
  let cleared := {| chapter_id := e.(chapter_id); input_data := e.(input_data);
                    generated_content := Str ""; updated_at := Some now |} in
  match e.(generated_content) with
  | Absent => None
  | Null => Some cleared
  | Str s => if negb (String.eqb s "") then Some cleared else None
  end.

(** The loop [for chapter_key, entry in chapters.items()]. *)
Fixpoint clear_all (now : string) (chs : list (string * entry)) : list string * list (string * entry) :=
  match chs with
  | [] => ([], [])
  | (k, e) :: chs' =>
      let (ks, rest) := clear_all now chs' in
      match _clear now e with
      | Some e' => (k :: ks, (k, e') :: rest)
      | None => (ks, (k, e) :: rest)
      end
  end.

(** [clear_generated_content(chapter_id)]: the returned [project_id] and
    [cleared_chapters], and the file after it. *)
Definition clear_generated_content (project_id_ now : string) (f : data_file)
  (chapter_id_ : option string) : (string * list string) * data_file :=
  let p := _load project_id_ now f in
  let one c :=
    match dget p.(chapters) c with
    | Some e => match _clear now e with
                | Some e' => ([c], dset p.(chapters) c e')
                | None => ([], p.(chapters))
                end
    | None => ([], p.(chapters))
    end in
  let (cleared, chs) :=
    match chapter_id_ with
    | Some c => if negb (String.eqb c "") then one c else clear_all now p.(chapters)
    | None => clear_all now p.(chapters)
    end in
  ((project_id_, cleared),
   match cleared with [] => f | _ :: _ => _save now (with_chapters p chs) end).

End ProjectStorage.

(* ------------------------------------------------------------------ *)
(** ** [ExampleManager]: the example index [examples/index.json] *)

(** The index file of a project; the example files themselves are not
    modelled. *)
Module ExampleManager.

Record example := mkExample { id : string; name : string }.

Inductive index_file := EMissing | ECorrupt | EValid (examples : list example).

(** [_load_index()]: a missing file or one that fails to load reads as
    the empty list. *)
Definition _load_index (f : index_file) : list example :=
  match f with EValid l => l | EMissing | ECorrupt => [] end.

(** [_save_index(examples)] *)
Definition _save_index (l : list example) : index_file := EValid l.

(** [add_example(file_id, filename)] *)
Definition add_example (f : index_file) (file_id filename : string) : index_file :=
  let examples := _load_index f in
  if existsb (fun e => String.eqb e.(id) file_id) examples then f
  else _save_index (examples ++ [{| id := file_id; name := filename |}]).

(** [replace_examples(items)] *)
Definition replace_examples (items : list example) : index_file := _save_index items.

(** [remove_example(file_id)] on the index. *)
Definition remove_example (f : index_file) (file_id : string) : index_file :=
  _save_index (filter (fun e => negb (String.eqb e.(id) file_id)) (_load_index f)).

(** [get_all_examples()] *)
Definition get_all_examples (f : index_file) : list example := _load_index f.

(** [get_example_by_id(file_id)] *)
Definition get_example_by_id (f : index_file) (file_id : string) : option example :=
  List.find (fun e => String.eqb e.(id) file_id) (_load_index f).

End ExampleManager.

Module ProjectStorageFacts.
Import ProjectStorage.

(** Whether [_clear] clears an entry. *)
Definition needs_clear (e : entry) : bool :=
  match e.(generated_content) with
  | Absent => false
  | Null => true
  | Str s => negb (String.eqb s "")
  end.

Definition after_clear (now : string) (e : entry) : entry :=
  match _clear now e with Some e' => e' | None => e end.

Lemma dget_dset_same {A : Type} (d : list (string * A)) k v : dget (dset d k v) k = Some v.
Proof.
  induction d as [|[k' v'] d IH]; simpl; [now rewrite String.eqb_refl|].
  destruct (String.eqb k' k) eqn:E; simpl; rewrite E; [reflexivity|exact IH].
Qed.

Lemma dget_dset_other {A : Type} (d : list (string * A)) k k' v : k <> k' ->
  dget (dset d k v) k' = dget d k'.
Proof.
  intros Hne. induction d as [|[k0 v0] d IH]; simpl.
  - apply String.eqb_neq in Hne. now rewrite Hne.
  - destruct (String.eqb_spec k0 k) as [->|Hk]; simpl.
    + apply String.eqb_neq in Hne. now rewrite Hne.
    + destruct (String.eqb k0 k'); [reflexivity|exact IH].
Qed.

Lemma load_chapters_now pid now now' f : (_load pid now f).(chapters) = (_load pid now' f).(chapters).
Proof. destruct f; reflexivity. Qed.

Lemma load_save pid now now' p : _load pid now' (_save now p) = 
  {| project_id := p.(project_id); payload_updated_at := now; chapters := p.(chapters) |}.
Proof. reflexivity. Qed.

Lemma clear_some now e e' : _clear now e = Some e' -> needs_clear e = true.
Proof.
  unfold _clear, needs_clear. destruct (generated_content e) as [| |s]; try discriminate; auto.
  destruct (negb _); [reflexivity|discriminate].
Qed.

Lemma clear_none now e : _clear now e = None -> needs_clear e = false.
Proof.
  unfold _clear, needs_clear. destruct (generated_content e) as [| |s]; try discriminate; auto.
  destruct (negb _); [discriminate|reflexivity].
Qed.

Lemma needs_clear_after now e : needs_clear (after_clear now e) = false.
Proof.
  unfold after_clear. destruct (_clear now e) as [e'|] eqn:E; [|exact (clear_none now e E)].
  unfold _clear in E. destruct (generated_content e) as [| |s]; try discriminate.
  - injection E as <-. reflexivity.
  - destruct (negb _); [|discriminate]. injection E as <-. reflexivity.
Qed.

Lemma clear_all_keys now chs :
  fst (clear_all now chs) = map fst (filter (fun ke => needs_clear (snd ke)) chs).
Proof.
  induction chs as [|[k e] chs IH]; simpl; [reflexivity|].
  destruct (clear_all now chs) as [ks rest]. simpl in IH.
  destruct (_clear now e) as [e'|] eqn:E.
  - rewrite (clear_some now e e' E). simpl. now rewrite IH.
  - rewrite (clear_none now e E). exact IH.
Qed.

Lemma clear_all_dget now chs c :
  dget (snd (clear_all now chs)) c = option_map (after_clear now) (dget chs c).
Proof.
  induction chs as [|[k e] chs IH]; simpl; [reflexivity|].
  destruct (clear_all now chs) as [ks rest]. simpl in IH.
  destruct (_clear now e) as [e'|] eqn:E; cbn [dget option_map snd];
    (destruct (String.eqb k c); [cbn [option_map]; unfold after_clear; now rewrite E|exact IH]).
Qed.

Lemma clear_all_nil now chs : fst (clear_all now chs) = [] -> snd (clear_all now chs) = chs.
Proof.
  induction chs as [|[k e] chs IH]; simpl; [reflexivity|].
  destruct (clear_all now chs) as [ks rest]. simpl in IH.
  destruct (_clear now e); simpl; [discriminate|]. intros H. now rewrite (IH H).
Qed.

Lemma get_chapter_data_eq pid now f c :
  get_chapter_data pid now f c
  = match dget (_load pid now f).(chapters) c with Some e => e | None => blank_entry c end.
Proof. reflexivity. Qed.

End ProjectStorageFacts.

Module ProjectStorageExtras.
Import ProjectStorage ProjectStorageFacts.

(** [set_chapter_data] followed by [get_chapter_data] on the same chapter
    returns the entry it returned, whose [input_data] is the given one and
    whose [generated_content] is the given one or, when [None] is given,
    the one the chapter had; every other chapter reads as before. *)
Theorem set_chapter_data_then_get pid now f cid input gc e f' :
  set_chapter_data pid now f cid input gc = (e, f') ->
  (forall now', get_chapter_data pid now' f' cid = e)
  /\ e.(input_data) = input
  /\ e.(generated_content) = match gc with
                             | Some g => Str g
                             | None => (get_chapter_data pid now f cid).(generated_content)
                             end
  /\ (forall cid' now', cid' <> cid ->
      get_chapter_data pid now' f' cid' = get_chapter_data pid now f cid').
Proof.
  unfold set_chapter_data. intros H. injection H as <- <-.
  split; [|split; [reflexivity|split]].
  - intros now'. unfold get_chapter_data. simpl. now rewrite dget_dset_same.
  - destruct gc; reflexivity.
  - intros cid' now' Hne. unfold get_chapter_data. simpl.
    rewrite dget_dset_other by (intros E; apply Hne; symmetry; exact E). reflexivity.
Qed.

(** [set_generated_content] keeps the [input_data] of the chapter, and
    [get_chapter_data] then returns the entry it returned; every other
    chapter reads as before. *)
Theorem set_generated_content_then_get pid now f cid g e f' :
  set_generated_content pid now f cid g = (e, f') ->
  (forall now', get_chapter_data pid now' f' cid = e)
  /\ e.(input_data) = (get_chapter_data pid now f cid).(input_data)
  /\ e.(generated_content) = Str g
  /\ (forall cid' now', cid' <> cid ->
      get_chapter_data pid now' f' cid' = get_chapter_data pid now f cid').
Proof.
  unfold set_generated_content. intros H. injection H as <- <-.
  split; [|split; [reflexivity|split; [reflexivity|]]].
  - intros now'. unfold get_chapter_data. simpl. now rewrite dget_dset_same.
  - intros cid' now' Hne. unfold get_chapter_data. simpl.
    rewrite dget_dset_other by (intros E; apply Hne; symmetry; exact E). reflexivity.
Qed.

(** [clear_generated_content] with no chapter id, or the empty one (which
    is falsy), clears every chapter whose content is a non-empty string or
    [null]: it returns the keys of exactly those chapters, in file order,
    no chapter has content left to clear afterwards, and when none had,
    nothing is written. *)
Theorem clear_all_chapters pid now f cid pid' ks f' :
  cid = None \/ cid = Some ""%string ->
  clear_generated_content pid now f cid = ((pid', ks), f') ->
  pid' = pid
  /\ ks = map fst (filter (fun ke => needs_clear (snd ke)) (_load pid now f).(chapters))
  /\ (ks = [] -> f' = f)
  /\ (forall c now', needs_clear (get_chapter_data pid now' f' c) = false).
Proof.
  intros Hc. unfold clear_generated_content.
  replace (match cid with
           | Some c => if negb (String.eqb c "") then _ else clear_all now (_load pid now f).(chapters)
           | None => clear_all now (_load pid now f).(chapters) end)
    with (clear_all now (_load pid now f).(chapters))
    by (destruct Hc as [->| ->]; reflexivity).
  pose proof (clear_all_keys now (_load pid now f).(chapters)) as Hk.
  pose proof (clear_all_dget now (_load pid now f).(chapters)) as Hd.
  pose proof (clear_all_nil now (_load pid now f).(chapters)) as Hn.
  destruct (clear_all now (_load pid now f).(chapters)) as [ks0 chs]. simpl in Hk, Hd, Hn.
  intros H. injection H as <- <- <-.
  split; [reflexivity|]. split; [exact Hk|].
  assert (Hall : forall c, needs_clear (match dget chs c with Some e => e | None => blank_entry c end)
                           = false).
  { intros c. rewrite Hd. destruct (dget _ c); simpl; [apply needs_clear_after|reflexivity]. }
  destruct ks0 as [|k ks0].
  - split; [reflexivity|]. intros c now'. rewrite get_chapter_data_eq.
    rewrite (load_chapters_now pid now' now f), <- (Hn eq_refl). apply Hall.
  - split; [discriminate|]. intros c now'. apply Hall.
Qed.

(** [clear_generated_content] with a non-empty chapter id clears that
    chapter only, and only when its content is a non-empty string or
    [null]; when it does not, nothing is written. *)
Theorem clear_one_chapter pid now f c pid' ks f' :
  c <> ""%string ->
  clear_generated_content pid now f (Some c) = ((pid', ks), f') ->
  pid' = pid
  /\ ks = (if needs_clear (get_chapter_data pid now f c) then [c] else [])
  /\ (ks = [] -> f' = f)
  /\ (forall now', needs_clear (get_chapter_data pid now' f' c) = false)
  /\ (forall c' now', c' <> c -> get_chapter_data pid now' f' c' = get_chapter_data pid now f c').
Proof.
  intros Hc. unfold clear_generated_content.
  apply String.eqb_neq in Hc. rewrite Hc. cbv beta iota.
  rewrite get_chapter_data_eq.
  destruct (dget (_load pid now f).(chapters) c) as [e|] eqn:Eg.
  - destruct (_clear now e) as [e'|] eqn:Ec.
    + intros H. injection H as <- <- <-. rewrite (clear_some now e e' Ec).
      split; [reflexivity|]. split; [reflexivity|]. split; [discriminate|]. split.
      * intros now'. unfold get_chapter_data. simpl. rewrite dget_dset_same.
        pose proof (needs_clear_after now e) as Ha. unfold after_clear in Ha.
        rewrite Ec in Ha. exact Ha.
      * intros c' now' Hne. unfold get_chapter_data. simpl.
        rewrite dget_dset_other by (intros E; apply Hne; symmetry; exact E).
        rewrite (load_chapters_now pid now now' f). reflexivity.
    + intros H. injection H as <- <- <-. rewrite (clear_none now e Ec).
      split; [reflexivity|]. split; [reflexivity|]. split; [reflexivity|]. split.
      * intros now'. rewrite get_chapter_data_eq, (load_chapters_now pid now' now f), Eg.
        exact (clear_none now e Ec).
      * intros c' now' Hne. unfold get_chapter_data. now rewrite (load_chapters_now pid now' now f).
  - intros H. injection H as <- <- <-.
    split; [reflexivity|]. split; [reflexivity|]. split; [reflexivity|]. split.
    + intros now'. rewrite get_chapter_data_eq, (load_chapters_now pid now' now f), Eg.
      reflexivity.
    + intros c' now' Hne. unfold get_chapter_data. now rewrite (load_chapters_now pid now' now f).
Qed.

End ProjectStorageExtras.

Module ExampleManagerExtras.
Import ExampleManager.

Lemma find_app_ex (g : example -> bool) l1 l2 :
  List.find g (l1 ++ l2) = match List.find g l1 with Some x => Some x | None => List.find g l2 end.
Proof. induction l1 as [|x l1 IH]; simpl; [reflexivity|]. destruct (g x); auto. Qed.

Lemma find_existsb_none (g : example -> bool) l : existsb g l = false -> List.find g l = None.
Proof.
  induction l as [|x l IH]; simpl; [reflexivity|].
  intros H. apply orb_false_iff in H as [H1 H2]. rewrite H1. exact (IH H2).
Qed.

Lemma find_existsb_some (g : example -> bool) l : existsb g l = true -> exists x, List.find g l = Some x.
Proof.
  induction l as [|x l IH]; simpl; [discriminate|].
  destruct (g x); simpl; [eauto|exact IH].
Qed.

(** [add_example] followed by [get_example_by_id] with the same id: the
    example the index already had under that id, or else the new one. *)
Theorem add_example_then_get f fid nm :
  get_example_by_id (add_example f fid nm) fid
  = match get_example_by_id f fid with
    | Some e => Some e
    | None => Some {| id := fid; name := nm |}
    end.
Proof.
  unfold get_example_by_id, add_example.
  destruct (existsb (fun e => String.eqb e.(id) fid) (_load_index f)) eqn:E.
  - destruct (find_existsb_some _ _ E) as (x & Hx). now rewrite Hx.
  - rewrite (find_existsb_none _ _ E). simpl. rewrite find_app_ex, (find_existsb_none _ _ E).
    simpl. now rewrite String.eqb_refl.
Qed.

(** After [remove_example] no example has the id, and every other id is
    found as before. *)
Theorem remove_example_then_get f fid fid' :
  get_example_by_id (remove_example f fid) fid'
  = if String.eqb fid' fid then None else get_example_by_id f fid'.
Proof.
  unfold get_example_by_id, remove_example. simpl.
  induction (_load_index f) as [|x l IH]; simpl.
  - destruct (String.eqb fid' fid); reflexivity.
  - destruct (String.eqb_spec (id x) fid) as [Hx|Hx]; simpl.
    + rewrite IH. destruct (String.eqb_spec fid' fid) as [->|Hne]; [reflexivity|].
      rewrite Hx. apply String.eqb_neq in Hne. rewrite String.eqb_sym, Hne. reflexivity.
    + destruct (String.eqb_spec (id x) fid') as [<-|Hne].
      * apply String.eqb_neq in Hx. now rewrite Hx.
      * exact IH.
Qed.

(** [add_example] and [remove_example] keep the ids of the index distinct. *)
Theorem example_ids_stay_distinct f fid nm :
  NoDup (map id (get_all_examples f)) ->
  NoDup (map id (get_all_examples (add_example f fid nm)))
  /\ NoDup (map id (get_all_examples (remove_example f fid))).
Proof.
  unfold get_all_examples, add_example, remove_example. intros H. split.
  - destruct (existsb (fun e => String.eqb e.(id) fid) (_load_index f)) eqn:E; [exact H|].
    simpl. rewrite map_app. simpl. apply NoDup_app; [exact H|constructor; [intros []|constructor]|].
    intros i Hi [<-|[]]. apply in_map_iff in Hi as (x & Hx & Hin).
    assert (existsb (fun e => String.eqb e.(id) fid) (_load_index f) = true)
      by (apply existsb_exists; exists x; split; [exact Hin|]; apply String.eqb_eq; exact Hx).
    congruence.
  - simpl. induction (_load_index f) as [|x l IH]; simpl in *; [constructor|].
    inversion H as [|y ys Hy Hys]; subst.
    destruct (negb (String.eqb (id x) fid)); simpl; [|exact (IH Hys)].
    constructor; [|exact (IH Hys)].
    intros Hin. apply Hy. apply in_map_iff in Hin as (z & Hz & Hin).
    apply in_map_iff. exists z. split; [exact Hz|]. apply filter_In in Hin. tauto.
Qed.

End ExampleManagerExtras.

Module StoreExtrasWitnesses.
Import PyStr.

Definition two_projects : ProjectManager.index :=
  ProjectManager.IValid
    [ProjectManager._build_project_entry "default" ProjectManager.DEFAULT_PROJECT_NAME "t0";
     ProjectManager._build_project_entry "p1" (u "Alpha") "t0"].

Lemma ensure_initialized_default_witness :
  exists ps, ProjectManager.ensure_initialized "t0" ProjectManager.IMissing
             = (ProjectManager.Ok tt, ProjectManager.IValid ps)
    /\ existsb ProjectManager.is_default_project ps = true.
Proof.
  destruct (ProjectManagerExtras.ensure_initialized_default "t0" ProjectManager.IMissing
              ltac:(discriminate)) as (ps & H1 & H2 & _).
  exists ps. split; [exact H1|exact H2].
Defined.

Lemma create_project_blank_name_witness :
  ProjectManager.create_project "t0" "p2" (u "   ") two_projects
  = (ProjectManager.Err ProjectManager.NameRequired, two_projects).
Proof.
  apply ProjectManagerExtras.create_project_blank_name. vm_compute. reflexivity.
Defined.

Lemma create_project_then_get_witness :
  let r := ProjectManager.create_project "t0" "p2" (u " Beta ") two_projects in
  ProjectManager.get_project "t1" "p2" (snd r)
  = (ProjectManager.Ok (ProjectManager._build_project_entry "p2" (u "Beta") "t0"), snd r).
Proof.
  intros r.
  destruct (ProjectManagerExtras.create_project_then_get "t0" "p2" (u " Beta ") two_projects
              (ProjectManager._build_project_entry "p2" (u "Beta") "t0") (snd r) eq_refl)
    as (_ & _ & ps & Hens & _ & Hget).
  apply Hget. injection Hens as <-. reflexivity.
Defined.

Lemma delete_project_removes_witness :
  let r := ProjectManager.delete_project "t0" "p1" two_projects in
  ProjectManager.get_project "t1" "p1" (snd r) = (ProjectManager.Err (ProjectManager.NotFound "p1"), snd r).
Proof.
  intros r.
  destruct (ProjectManagerExtras.delete_project_removes "t0" "p1" two_projects "p1" (snd r) eq_refl)
    as (_ & _ & ps & _ & _ & _ & _ & Hget).
  apply Hget.
Defined.

Lemma delete_project_refuses_witness :
  ProjectManager.delete_project "t0" ProjectManager.DEFAULT_PROJECT_ID ProjectManager.IMissing
  = (ProjectManager.Err ProjectManager.DefaultNotDeletable,
     ProjectManager.IValid [ProjectManager._build_project_entry "default"
                              ProjectManager.DEFAULT_PROJECT_NAME "t0"]).
Proof.
  apply (ProjectManagerExtras.delete_project_refuses "t0" ProjectManager.IMissing).
  discriminate.
Defined.

Definition one_chapter : ProjectStorage.data_file :=
  ProjectStorage.DValid
    {| ProjectStorage.project_id := "p1"; ProjectStorage.payload_updated_at := "t0";
       ProjectStorage.chapters :=
         [("chapter_1"%string,
           {| ProjectStorage.chapter_id := "chapter_1"; ProjectStorage.input_data := "in";
              ProjectStorage.generated_content := ProjectStorage.Str "out";
              ProjectStorage.updated_at := Some "t0"%string |});
          ("chapter_2"%string,
           {| ProjectStorage.chapter_id := "chapter_2"; ProjectStorage.input_data := "";
              ProjectStorage.generated_content := ProjectStorage.Null;
              ProjectStorage.updated_at := None |})] |}.

Lemma set_chapter_data_then_get_witness :
  let r := ProjectStorage.set_chapter_data "p1" "t1" one_chapter "chapter_1" "new" None in
  ProjectStorage.get_chapter_data "p1" "t2" (snd r) "chapter_1" = fst r
  /\ ProjectStorage.generated_content (fst r) = ProjectStorage.Str "out".
Proof.
  intros r.
  destruct (ProjectStorageExtras.set_chapter_data_then_get "p1" "t1" one_chapter "chapter_1" "new"
              None (fst r) (snd r) eq_refl) as (H1 & _ & H3 & _).
  split; [apply H1|exact H3].
Defined.

Lemma set_generated_content_then_get_witness :
  let r := ProjectStorage.set_generated_content "p1" "t1" one_chapter "chapter_1" "x" in
  ProjectStorage.get_chapter_data "p1" "t2" (snd r) "chapter_1" = fst r
  /\ ProjectStorage.input_data (fst r) = "in"%string.
Proof.
  intros r.
  destruct (ProjectStorageExtras.set_generated_content_then_get "p1" "t1" one_chapter "chapter_1"
              "x" (fst r) (snd r) eq_refl) as (H1 & H2 & _ & _).
  split; [apply H1|exact H2].
Defined.

Lemma clear_all_chapters_witness :
  let r := ProjectStorage.clear_generated_content "p1" "t1" one_chapter (Some ""%string) in
  snd (fst r) = ["chapter_1"; "chapter_2"]%string.
Proof.
  intros r.
  destruct (ProjectStorageExtras.clear_all_chapters "p1" "t1" one_chapter (Some ""%string)
              (fst (fst r)) (snd (fst r)) (snd r) (or_intror eq_refl) eq_refl)
    as (_ & Hk & _ & _).
  rewrite Hk. reflexivity.
Defined.

Lemma clear_one_chapter_witness :
  let r := ProjectStorage.clear_generated_content "p1" "t1" one_chapter (Some "chapter_3"%string) in
  snd (fst r) = [] /\ snd r = one_chapter.
Proof.
  intros r.
  destruct (ProjectStorageExtras.clear_one_chapter "p1" "t1" one_chapter "chapter_3"
              (fst (fst r)) (snd (fst r)) (snd r) ltac:(discriminate) eq_refl)
    as (_ & Hk & Hf & _ & _).
  rewrite Hk in Hf |- *. split; [reflexivity|]. apply Hf. reflexivity.
Defined.

Lemma example_ids_stay_distinct_witness :
  NoDup (map ExampleManager.id (ExampleManager.get_all_examples
    (ExampleManager.add_example
       (ExampleManager.EValid [{| ExampleManager.id := "a"; ExampleManager.name := "a.md" |}])
       "b" "b.md"))).
Proof.
  apply (ExampleManagerExtras.example_ids_stay_distinct
           (ExampleManager.EValid [{| ExampleManager.id := "a"; ExampleManager.name := "a.md" |}])
           "b" "b.md").
  simpl. constructor; [intros []|constructor].
Defined.

End StoreExtrasWitnesses.

Module PromptComposerExtras.
Import PyStr PromptComposer PromptComposerClaims.

(** A user prompt template without a [{] is the user prompt itself,
    whatever the data summary and the examples text: both tokens start
    with [{], so neither [replace] finds an occurrence. *)
Theorem compose_without_open_brace t ds ex :
  avoids 123%N t = true -> compose_user_prompt t ds ex = t.
Proof.
  intros H. unfold compose_user_prompt.
  rewrite data_summary_token_first, (replace_avoid_first 123%N _ ds t H).
  rewrite examples_text_token_first. exact (replace_avoid_first 123%N _ _ t H).
Qed.

Lemma compose_without_open_brace_witness :
  compose_user_prompt (u "Summarize the data.") (u "{examples_text}") (u "ex")
  = u "Summarize the data.".
Proof. apply compose_without_open_brace. vm_compute. reflexivity. Defined.

End PromptComposerExtras.
